(** * osl-dynamics: the state-sequence simulation core

    A shallow embedding of [osl_dynamics/simulation/_hmm.py] (the classes
    [HMM], [MS_HMM_MVN] and [HierarchicalHMM_MVN]) and of [get_one_hot] from
    [osl_dynamics/array_ops.py], together with the properties of the
    transition-matrix builder, the Markov-chain sampler and the two composers.

    Conventions of the embedding:
    - NumPy floating-point entries are idealised as exact rationals ([Q]);
      rounding, infinities and NaN are outside the model.  The comparisons
      with [1e-12] are transcribed as the code writes them; a sum that is
      off by exactly the tolerance is left out of the properties of the
      validation, since no binary64 sum is (see [tol_binary64_off_grid]).
    - Where the versions of NumPy differ, the embedding follows NumPy 1.x,
      for which the repository was written.
    - A two-dimensional array is a record of its shape and its list of rows;
      arrays of another dimension keep only what the code reads of them.
    - A Python exception is a value of [exn]; fallible code returns [result].
    - The NumPy random generator is an interface ([Generator]): a state type,
      a seeding function and [choice], with the part of NumPy's contract the
      sampler relies on.  A fresh [default_rng(None)] draws its seed from the
      operating system; that value is the explicit [entropy] argument. *)

From Stdlib Require Import QArith Qabs ZArith Lia List String.
From stdpp Require Import base option list.

Local Open Scope string_scope.
Local Open Scope list_scope.
Local Open Scope nat_scope.

(** ** Exceptions and fallible computations *)

Inductive exn : Type :=
  | ValueError (msg : string)
  | TypeError
  | IndexError
  | StopIteration
  | ZeroDivisionError
  | AttributeError.

Inductive result (A : Type) : Type :=
  | Ok (a : A)
  | Raise (e : exn).

Arguments Ok {A} a.
Arguments Raise {A} e.

#[global] Instance result_ret : MRet result := fun A a => Ok a.
#[global] Instance result_bind : MBind result := fun A B f m =>
  match m with
  | Ok a => f a
  | Raise e => Raise e
  end.

Definition is_ok {A} (r : result A) : bool :=
  match r with Ok _ => true | Raise _ => false end.

(** ** Arrays *)

(** A 2-D array: [shape0] rows of [shape1] entries each. *)
Record array2 (A : Type) : Type := Array2 {
  shape0 : nat;
  shape1 : nat;
  rows : list (list A)
}.

Arguments Array2 {A} shape0 shape1 rows.
Arguments shape0 {A} a.
Arguments shape1 {A} a.
Arguments rows {A} a.

(** The shape invariant every array produced by NumPy satisfies. *)
Definition wf_array2 {A} (a : array2 A) : Prop :=
  length (rows a) = shape0 a /\ Forall (fun r => length r = shape1 a) (rows a).

(** An [np.ndarray] as [HMM.__init__] inspects it: of an array that is not
    two-dimensional only [ndim] is read before the constructor raises. *)
Inductive ndarray : Type :=
  | Nd0
  | Nd1 (v : list Q)
  | Nd2 (m : array2 Q)
  | NdHigher (extra_dims : nat).

Definition ndim (a : ndarray) : nat :=
  match a with
  | Nd0 => 0
  | Nd1 _ => 1
  | Nd2 _ => 2
  | NdHigher k => 3 + k
  end.

(** [np.zeros([r, c])] and [np.ones([r, c])]. *)
Definition np_zeros (r c : nat) : array2 Q := Array2 r c (replicate r (replicate c 0%Q)).
Definition np_ones (r c : nat) : array2 Q := Array2 r c (replicate r (replicate c 1%Q)).

(** [a * s] for a scalar [s]: every entry is multiplied. *)
Definition np_scale (a : array2 Q) (s : Q) : array2 Q :=
  Array2 (shape0 a) (shape1 a) (map (map (fun x => (x * s)%Q)) (rows a)).

(** [np.fill_diagonal(a[:, off:], v)]: the slice is a view, so the base
    array is updated; entry [(i, i)] of the view is entry [(i, i + off)] of
    [a], and the positions that fall outside the view are skipped.
    [np.fill_diagonal(a, v)] is the case [off = 0], and so is
    [a[np.diag_indices(n)] = v] on an [n x n] array. *)
Definition fill_diagonal (off : nat) (v : Q) (a : array2 Q) : array2 Q :=
  Array2 (shape0 a) (shape1 a) (imap (fun i r => <[i + off := v]> r) (rows a)).

(** [a[-1, 0] = v]: index [-1] is the last row; an empty axis raises. *)
Definition setitem_last_first (v : Q) (a : array2 Q) : result (array2 Q) :=
  if (shape0 a =? 0) || (shape1 a =? 0) then Raise IndexError
  else Ok (Array2 (shape0 a) (shape1 a) (alter (fun r => <[0 := v]> r) (shape0 a - 1) (rows a))).

(** [a.sum()] of a 1-D array. *)
Definition np_sum (v : list Q) : Q := fold_right Qplus 0%Q v.

(** [a.sum(axis=1)]: one sum per row. *)
Definition sum_axis1 (a : array2 Q) : list Q := map np_sum (rows a).

(** Column [j] of [a]. *)
Definition column (a : array2 Q) (j : nat) : list Q :=
  map (fun r => nth j r 0%Q) (rows a).

(** [a.sum(axis=0)]: one sum per column. *)
Definition sum_axis0 (a : array2 Q) : list Q :=
  map (fun j => np_sum (column a j)) (seq 0 (shape1 a)).

(** [a.T]. *)
Definition transpose (a : array2 Q) : array2 Q :=
  Array2 (shape1 a) (shape0 a) (map (column a) (seq 0 (shape1 a))).

(** [a[i, j]]. *)
Definition entry {A} (a : array2 A) (i j : nat) : option A :=
  r ← rows a !! i; r !! j.

(** The largest number of dimensions NumPy accepts for an array. *)
Definition NPY_MAXDIMS : nat := 32.

(** [np.ndarray(l)] for a Python list [l] of rows: the first positional
    argument of [np.ndarray] is the shape.  A sequence longer than
    [NPY_MAXDIMS] is refused first; then every element has to be an integer,
    and a row is a list; the empty list is the shape of a 0-d array. *)
Definition np_ndarray (l : list (list Q)) : result ndarray :=
  if NPY_MAXDIMS <? length l then
    Raise (ValueError "maximum supported dimension for an ndarray exceeded")
  else match l with
       | [] => Ok Nd0
       | _ :: _ => Raise TypeError
       end.

(** ** Comparisons with the tolerance *)

Definition tol : Q := 1 # 1000000000000.

(** The double the literal [1e-12] denotes, [0x1.19799812dea11p-40]. *)
Definition tol_binary64 : Q := 4951760157141521 # (2 ^ 92).

Definition Qltb (x y : Q) : bool := negb (Qle_bool y x).

(** [row_sums - ones]. *)
Definition np_sub (u v : list Q) : list Q := zip_with Qminus u v.

(** [np.any(abs(d) > 1e-12)] and [np.all(abs(d) < 1e-12)]. *)
Definition any_above_tol (d : list Q) : bool := existsb (fun x => Qltb tol (Qabs x)) d.
Definition all_below_tol (d : list Q) : bool := forallb (fun x => Qltb (Qabs x) tol) d.

(** ** The random generator *)

(** A probability vector [rng.choice] accepts for a population of [a]. *)
Definition valid_pvec (a : nat) (p : list Q) : Prop :=
  length p = a /\ Forall (fun x => (0 <= x)%Q) p /\ (Qabs (np_sum p - 1) <= tol)%Q.

Class Generator : Type := {
  rng : Type;
  (** [np.random.default_rng(seed)] for an integer seed. *)
  seed_rng : Z -> rng;
  (** [g.choice(a, size=size, p=p)]: the draws and the advanced generator. *)
  choice : rng -> nat -> nat -> list Q -> result (list nat * rng);
  (** On a valid probability vector [choice] returns [size] draws from
      [range(a)]. *)
  choice_ok : forall g a size p, valid_pvec a p ->
    exists xs g', choice g a size p = Ok (xs, g') /\
                  length xs = size /\ Forall (fun x => x < a) xs
}.

(** [np.random.default_rng(random_seed)]: without a seed the generator is
    seeded from fresh operating-system entropy. *)
Definition default_rng `{Generator} (random_seed : option Z) (entropy : Z) : rng :=
  seed_rng (default entropy random_seed).

(** ** The HMM class *)

(** What a caller can pass as [trans_prob]. *)
Inductive trans_prob_arg : Type :=
  | ArgArray (a : ndarray)
  | ArgList (l : list (list Q))
  | ArgStr (s : string)
  | ArgNone.

Record HMM `{Generator} : Type := MkHMM {
  trans_prob : array2 Q;
  n_states : nat;
  _rng : rng
}.

(** [np.zeros([n, n])] and friends raise on a negative dimension. *)
Definition square_of (mk : nat -> nat -> array2 Q) (n : Z) : result (array2 Q) :=
  if (n <? 0)%Z then Raise (ValueError "negative dimensions are not allowed")
  else Ok (mk (Z.to_nat n) (Z.to_nat n)).

(** [HMM.construct_sequence_trans_prob]. *)
Definition construct_sequence_trans_prob (stay_prob : Q) (n_states : Z) : result (array2 Q) :=
  trans_prob ← square_of np_zeros n_states;
  let trans_prob := fill_diagonal 0 stay_prob trans_prob in
  let trans_prob := fill_diagonal 1 (1 - stay_prob)%Q trans_prob in
  setitem_last_first (1 - stay_prob)%Q trans_prob.

(** [HMM.construct_uniform_trans_prob]. *)
Definition construct_uniform_trans_prob (stay_prob : Q) (n_states : Z) : result (array2 Q) :=
  single_trans_prob ←
    (if (n_states - 1 =? 0)%Z then Raise ZeroDivisionError
     else Ok ((1 - stay_prob) / inject_Z (n_states - 1))%Q);
  ones ← square_of np_ones n_states;
  let trans_prob := np_scale ones single_trans_prob in
  Ok (fill_diagonal 0 stay_prob trans_prob).

Definition warn_transpose : string :=
  "Rows of trans_prob matrix must sum to 1. Transpose taken.".

(** The [isinstance(trans_prob, np.ndarray)] branch of [HMM.__init__]: the
    stored matrix and the warnings logged.  The sums are exact and the two
    comparisons are the code's own ([>] for the rows, [<] for the columns);
    they differ only for a sum off by exactly the tolerance, a case that
    binary64 sums do not produce and that the properties below leave
    out. *)
Definition check_array (a : ndarray) : result (array2 Q * list string) :=
  if negb (ndim a =? 2) then Raise (ValueError "trans_prob must be a 2D array.")
  else match a with
  | Nd2 m =>
      if negb (shape0 m =? shape1 m) then
        Raise (ValueError "trans_prob must be a square matrix.")
      else
        let row_sums := sum_axis1 m in
        let col_sums := sum_axis0 m in
        let ones := replicate (shape0 m) 1%Q in
        if any_above_tol (np_sub row_sums ones) then
          if all_below_tol (np_sub col_sums ones) then
            Ok (transpose m, [warn_transpose])
          else Raise (ValueError "Rows of trans_prob must sum to 1.")
        else Ok (m, [])
  | _ => Raise (ValueError "trans_prob must be a 2D array.")
  end.

(** The [isinstance(trans_prob, str)] branch of [HMM.__init__]. *)
Definition build_named (s : string) (stay_prob : option Q) (n_states : option Z)
  : result (array2 Q) :=
  if negb (existsb (String.eqb s) ["sequence"; "uniform"]) then
    Raise (ValueError "trans_prob must be a np.array, 'sequence' or 'uniform'.")
  else if bool_decide (n_states = Some 1%Z) then Ok (np_ones 1 1)
  else if String.eqb s "sequence" then
    match stay_prob, n_states with
    | Some p, Some n => construct_sequence_trans_prob p n
    | _, _ => Raise (ValueError "If trans_prob is 'sequence', stay_prob and n_states must be passed.")
    end
  else
    match n_states with
    | None => Raise (ValueError "If trans_prob is 'uniform', n_states must be passed.")
    | Some n =>
        stay_prob ←
          match stay_prob with
          | Some p => Ok p
          | None => if (n =? 0)%Z then Raise ZeroDivisionError else Ok (1 / inject_Z n)%Q
          end;
        construct_uniform_trans_prob stay_prob n
    end.

(** [HMM.__init__]: the instance and the warnings logged, or the exception.
    When no branch sets [self.trans_prob], reading it raises. *)
Definition HMM_init `{Generator} (trans_prob : trans_prob_arg) (stay_prob : option Q)
    (n_states : option Z) (random_seed : option Z) (entropy : Z)
  : result (HMM * list string) :=
  trans_prob ←
    match trans_prob with
    | ArgList l => a ← np_ndarray l; Ok (ArgArray a)
    | _ => Ok trans_prob
    end;
  '(self_trans_prob, warnings) ←
    match trans_prob with
    | ArgArray a => '(m, w) ← check_array a; Ok (Some m, w)
    | ArgStr s => m ← build_named s stay_prob n_states; Ok (Some m, [])
    | _ =>
        match trans_prob with
        | ArgNone => if bool_decide (n_states = Some 1%Z) then Ok (Some (np_ones 1 1), [])
                     else Ok (None, [])
        | _ => Ok (None, [])
        end
    end;
  m ← from_option Ok (Raise AttributeError) self_trans_prob;
  Ok (MkHMM _ m (shape0 m) (default_rng random_seed entropy), warnings).

(** ** One-hot encoding ([array_ops.get_one_hot]) *)

(** [np.eye(n)] after [astype(int)]. *)
Definition np_eye (n : nat) : list (list Z) :=
  map (fun i => map (fun j => if i =? j then 1%Z else 0%Z) (seq 0 n)) (seq 0 n).

(** [a[idx]] for a 2-D array [a] of [ncols] columns and an array [idx] of
    row indices: an index outside the array raises, unless the result
    holds no element.  The NumPy the repository was written for (1.x)
    does not look at the indices when the indexed array has no column:
    the result is then one empty row per index, whatever the indices. *)
Definition take_rows (ncols : nat) (a : list (list Z)) (idx : list nat)
  : result (list (list Z)) :=
  if ncols =? 0 then Ok (replicate (length idx) [])
  else mapM (fun v => from_option Ok (Raise IndexError) (a !! v)) idx.

(** [get_one_hot(values, n_states)] on a 1-D array of labels (the callers
    modelled here never pass a 2-D array, so the [argmax] branch is left
    out).  Indexing [np.eye(n_states)] with a label outside the matrix
    raises, except for [n_states = 0], where every label gives an empty
    row. *)
Definition get_one_hot (values : list nat) (n_states : option nat) : result (array2 Z) :=
  n_states ←
    match n_states with
    | Some n => Ok n
    | None =>
        match values with
        | [] => Raise (ValueError "zero-size array to reduction operation maximum")
        | _ :: _ => Ok (max_list values + 1)
        end
    end;
  res ← take_rows n_states (np_eye n_states) values;
  Ok (Array2 (length values) n_states res).

(** ** The Markov-chain sampler ([HMM.generate_states]) *)

(** A [for] loop over a list of indices, stopping at the first exception. *)
Fixpoint for_each {S : Type} (body : S -> nat -> result S) (st : S) (idx : list nat)
  : result S :=
  match idx with
  | [] => Ok st
  | i :: idx => st ← body st i; for_each body st idx
  end.

(** [next(rands[k])]: the iterators are shared mutable objects, so the
    list of what is left of each stream is passed along. *)
Definition next_rand (rands : list (list nat)) (k : nat)
  : result (nat * list (list nat)) :=
  match rands !! k with
  | None => Raise IndexError
  | Some [] => Raise StopIteration
  | Some (x :: it) => Ok (x, <[k := it]> rands)
  end.

(** The body of the sampling loop:
    [states[sample] = next(rands[states[sample - 1]])]. *)
Definition sample_step (st : list (list nat) * list nat) (sample : nat)
  : result (list (list nat) * list nat) :=
  let '(rands, states) := st in
  prev ← from_option Ok (Raise IndexError) (states !! (sample - 1));
  '(x, rands) ← next_rand rands prev;
  Ok (rands, <[sample := x]> states).

Section Sampler.
Context `{G : Generator}.

(** The list comprehension that pre-generates one stream of [n_samples]
    draws per source state, in the order of [range(self.n_states)]; every
    call of [choice] advances the generator. *)
Fixpoint draw_streams (g : rng) (n_states n_samples : nat) (trans_prob : array2 Q)
    (idx : list nat) : result (list (list nat) * rng) :=
  match idx with
  | [] => Ok ([], g)
  | i :: idx =>
      p ← from_option Ok (Raise IndexError) (rows trans_prob !! i);
      '(xs, g) ← choice g n_states n_samples p;
      '(rest, g) ← draw_streams g n_states n_samples trans_prob idx;
      Ok (xs :: rest, g)
  end.

(** The local variables of [generate_states] when it reaches its [return]. *)
Record sampler_locals : Type := MkLocals {
  streams : list (list nat);      (* the draws as [choice] returned them *)
  rands : list (list nat);        (* what is left of each iterator *)
  states : list nat;              (* the label of every sample *)
  rng_after : rng
}.

Definition generate_states_locals (self : HMM) (n_samples : nat) : result sampler_locals :=
  '(streams, g) ← draw_streams (_rng self) (n_states self) n_samples (trans_prob self)
                               (seq 0 (n_states self));
  let states := replicate n_samples 0 in
  '(rands, states) ← for_each sample_step (streams, states) (seq 1 (n_samples - 1));
  Ok (MkLocals streams rands states g).

(** [HMM.generate_states]: the one-hot array and the instance with its
    generator advanced. *)
Definition generate_states (self : HMM) (n_samples : nat) : result (array2 Z * HMM) :=
  l ← generate_states_locals self n_samples;
  one_hot ← get_one_hot (states l) (Some (n_states self));
  Ok (one_hot, MkHMM _ (trans_prob self) (n_states self) (rng_after l)).

(** ** The multi-time-scale composer ([MS_HMM_MVN.__init__]) *)

(** The part of [MS_HMM_MVN.__init__] up to the hand-off to the observation
    model.  [obs_n_modes] is [self.obs_mod.n_modes]; the observation model
    itself and the [Simulation] base class are outside this core. *)
Record MS_HMM_MVN : Type := MkMS {
  ms_n_states : Z;
  alpha_hmm : HMM;
  gamma_hmm : HMM;
  state_time_course : list (array2 Z)
}.

Definition seed_plus (random_seed : option Z) (k : Z) : option Z :=
  match random_seed with
  | None => None
  | Some s => Some (s + k)%Z
  end.

Definition MS_HMM_MVN_init (n_samples : nat) (trans_prob : trans_prob_arg)
    (obs_n_modes : Z) (stay_prob : option Q) (random_seed : option Z)
    (entropy_alpha entropy_gamma : Z) : result MS_HMM_MVN :=
  let self_n_states := obs_n_modes in
  '(alpha_hmm, _) ← HMM_init trans_prob stay_prob (Some self_n_states)
                             (seed_plus random_seed 1) entropy_alpha;
  '(gamma_hmm, _) ← HMM_init trans_prob stay_prob (Some self_n_states)
                             (seed_plus random_seed 2) entropy_gamma;
  '(alpha, alpha_hmm) ← generate_states alpha_hmm n_samples;
  '(gamma, gamma_hmm) ← generate_states gamma_hmm n_samples;
  Ok (MkMS self_n_states alpha_hmm gamma_hmm [alpha; gamma]).

End Sampler.

(** ** The hierarchical composer ([HierarchicalHMM_MVN.generate_states]) *)

(** [np.empty([r, c])]: the entries are whatever the allocated memory
    [mem] holds. *)
Definition np_empty (mem : nat -> nat -> Q) (r c : nat) : array2 Q :=
  Array2 r c (map (fun i => map (mem i) (seq 0 c)) (seq 0 r)).

(** [a[:, i]]: a column outside the array raises. *)
Definition get_column (a : array2 Z) (i : nat) : result (list Z) :=
  if shape1 a <=? i then Raise IndexError
  else Ok (map (fun r => nth i r 0%Z) (rows a)).

(** [np.argwhere(col == v)[:, 0]]: the positions holding [v], ascending. *)
Definition argwhere_eq (v : Z) (col : list Z) : list nat :=
  filter (fun t => col !! t = Some v) (seq 0 (length col)).

(** [a[:k]]. *)
Definition slice_rows (k : nat) (a : array2 Z) : array2 Z :=
  Array2 (Nat.min k (shape0 a)) (shape1 a) (take k (rows a)).

(** The rows a value of shape [(shape0 value, shape1 value)] is broadcast to
    for an assignment to [k] rows of [c] entries (converted to float); an
    axis may only differ when it has length one. *)
Definition broadcast_rows (k c : nat) (value : array2 Z) : result (list (list Q)) :=
  if negb ((shape0 value =? k) || (shape0 value =? 1)) ||
     negb ((shape1 value =? c) || (shape1 value =? 1))
  then Raise (ValueError "shape mismatch: value array could not be broadcast to indexing result")
  else Ok (map (fun j =>
                  let r := default [] (rows value !! (if shape0 value =? k then j else 0)) in
                  if shape1 value =? c then map inject_Z r
                  else replicate c (inject_Z (nth 0 r 0%Z)))
               (seq 0 k)).

(** [stc[idx] = value] for an array [idx] of row indices: the rows are
    written in order, so a later write to the same row wins. *)
Definition setitem_rows (stc : array2 Q) (idx : list nat) (value : array2 Z)
  : result (array2 Q) :=
  if negb (forallb (fun t => t <? shape0 stc) idx) then Raise IndexError
  else
    new_rows ← broadcast_rows (length idx) (shape1 stc) value;
    Ok (Array2 (shape0 stc) (shape1 stc)
               (fold_left (fun rs tr => <[tr.1 := tr.2]> rs) (zip idx new_rows) (rows stc))).

Section Hierarchy.
Context `{G : Generator}.

(** The semi-Markov chain class lives in [osl_dynamics.simulation._hsmm],
    outside this core: its instances and its [generate_states] are taken
    as given. *)
Variable HSMM : Type.
Variable HSMM_generate_states : HSMM -> nat -> result (array2 Z * HSMM).

(** [self.top_level_hmm] is an [HMM] or an [HSMM], by [top_level_hmm_type]. *)
Inductive top_level : Type :=
  | TopHMM (h : HMM)
  | TopHSMM (h : HSMM).

Definition top_generate_states (top : top_level) (n_samples : nat)
  : result (array2 Z * top_level) :=
  match top with
  | TopHMM h => '(x, h) ← generate_states h n_samples; Ok (x, TopHMM h)
  | TopHSMM h => '(x, h) ← HSMM_generate_states h n_samples; Ok (x, TopHSMM h)
  end.

Record HierarchicalHMM_MVN : Type := MkHier {
  hier_n_states : nat;
  top_level_hmm : top_level;
  n_bottom_level_hmms : nat;
  bottom_level_hmms : list HMM;
  top_level_stc : option (array2 Z)
}.

(** The body of the loop over the bottom-level chains: the state is the
    composite array and the list of chains, whose generators advance. *)
Definition bottom_step (top_level_stc : array2 Z) (n_samples : nat)
    (st : array2 Q * list HMM) (i : nat) : result (array2 Q * list HMM) :=
  let '(stc, hmms) := st in
  col ← get_column top_level_stc i;
  let time_points_active := argwhere_eq 1 col in
  h ← from_option Ok (Raise IndexError) (hmms !! i);
  '(x, h) ← generate_states h n_samples;
  stc ← setitem_rows stc time_points_active (slice_rows (length time_points_active) x);
  Ok (stc, <[i := h]> hmms).

(** [HierarchicalHMM_MVN.generate_states]. *)
Definition hier_generate_states (self : HierarchicalHMM_MVN) (n_samples : nat)
    (mem : nat -> nat -> Q) : result (array2 Q * HierarchicalHMM_MVN) :=
  let stc := np_empty mem n_samples (hier_n_states self) in
  '(top_stc, top) ← top_generate_states (top_level_hmm self) n_samples;
  '(stc, hmms) ← for_each (bottom_step top_stc n_samples)
                          (stc, bottom_level_hmms self)
                          (seq 0 (n_bottom_level_hmms self));
  Ok (stc, MkHier (hier_n_states self) top (n_bottom_level_hmms self) hmms (Some top_stc)).

End Hierarchy.

Arguments TopHMM {G HSMM} h.
Arguments TopHSMM {G HSMM} h.
Arguments MkHier {G HSMM} hier_n_states top_level_hmm n_bottom_level_hmms
  bottom_level_hmms top_level_stc.
Arguments hier_n_states {G HSMM} h.
Arguments top_level_hmm {G HSMM} h.
Arguments n_bottom_level_hmms {G HSMM} h.
Arguments bottom_level_hmms {G HSMM} h.
Arguments top_level_stc {G HSMM} h.
Arguments top_generate_states {G HSMM} HSMM_generate_states top n_samples.
Arguments hier_generate_states {G HSMM} HSMM_generate_states self n_samples mem.

(** ** A concrete generator

    A linear congruential bit generator with inverse-CDF sampling, the scheme
    of NumPy's [Generator.choice]: the probability vector is validated, the
    cumulative sums are normalised by their last entry, and every uniform
    draw is located among them. *)
Module LCG.

Definition modulus : Z := 2147483648.

Definition step (s : Z) : Z := ((1103515245 * s + 12345) mod modulus)%Z.

Definition uniform (s : Z) : Q := inject_Z s / inject_Z modulus.

Fixpoint cumsum (acc : Q) (p : list Q) : list Q :=
  match p with
  | [] => []
  | x :: p => (acc + x)%Q :: cumsum (acc + x)%Q p
  end.

(** [cdf.searchsorted(u, side='right')], kept inside [range(a)]. *)
Definition locate (a : nat) (p : list Q) (u : Q) : nat :=
  let total := np_sum p in
  Nat.min (a - 1) (length (filter (fun c => Qle_bool (c / total) u) (cumsum 0 p))).

Fixpoint draws (a : nat) (p : list Q) (s : Z) (size : nat) : list nat * Z :=
  match size with
  | O => ([], s)
  | S size =>
      let s' := step s in
      let '(xs, s'') := draws a p s' size in
      (locate a p (uniform s') :: xs, s'')
  end.

Definition atol : Q := 1 # 67108864.

Definition choice (g : Z) (a size : nat) (p : list Q) : result (list nat * Z) :=
  if negb (length p =? a) then Raise (ValueError "a and p must have same size")
  else if negb (forallb (fun x => Qle_bool 0 x) p) then
    Raise (ValueError "probabilities are not non-negative")
  else if Qltb atol (Qabs (np_sum p - 1)) then
    Raise (ValueError "probabilities do not sum to 1")
  else Ok (draws a p g size).

End LCG.

(** ** Vocabulary of the specification *)

(** How many entries of [l] equal [k]. *)
Definition occurrences (k : nat) (l : list nat) : nat :=
  length (filter (fun x => x = k) l).

(** The unit basis vector of length [n] with its one at position [k]. *)
Definition basis (n k : nat) : list Z :=
  map (fun j => if k =? j then 1%Z else 0%Z) (seq 0 n).

(** A row with exactly one entry equal to one, at [k], and zeros elsewhere. *)
Definition unit_row (n k : nat) (row : list Z) : Prop :=
  length row = n /\ k < n /\
  forall j, j < n -> row !! j = Some (if j =? k then 1%Z else 0%Z).

(** A chain whose transition matrix has one valid probability vector per
    state, for at least one state. *)
Definition valid_hmm `{Generator} (h : HMM) : Prop :=
  0 < n_states h /\
  shape0 (trans_prob h) = n_states h /\ shape1 (trans_prob h) = n_states h /\
  length (rows (trans_prob h)) = n_states h /\
  Forall (valid_pvec (n_states h)) (rows (trans_prob h)).

(** Label [k] is active at sample [t] of a one-hot time course. *)
Definition active (stc : array2 Z) (k t : nat) : Prop := entry stc t k = Some 1%Z.

(** The rank of [t] among the samples at which [k] is active. *)
Definition rank (stc : array2 Z) (k t : nat) : nat :=
  length (filter (fun t' => entry stc t' k = Some 1%Z) (seq 0 t)).

(** The pure part of [HMM.__init__]: the matrix it stores and the warnings
    it logs do not depend on the seed. *)
Definition built_matrix (trans_prob : trans_prob_arg) (stay_prob : option Q)
    (n_states : option Z) : result (array2 Q * list string) :=
  match trans_prob with
  | ArgArray a => check_array a
  | ArgList l => np_ndarray l ≫= check_array
  | ArgStr s => build_named s stay_prob n_states ≫= fun m => Ok (m, [])
  | ArgNone => if bool_decide (n_states = Some 1%Z) then Ok (np_ones 1 1, [])
               else Raise AttributeError
  end.

(** The one-hot array of the first [generate_states] call of a freshly
    constructed chain. *)
Definition first_sample `{Generator} (trans_prob : trans_prob_arg) (stay_prob : option Q)
    (n_states : option Z) (random_seed : option Z) (entropy : Z) (n_samples : nat)
  : result (array2 Z) :=
  '(hmm, _) ← HMM_init trans_prob stay_prob n_states random_seed entropy;
  '(one_hot, _) ← generate_states hmm n_samples;
  Ok one_hot.

(** The draws fed to the iterators: one stream per index, each the result
    of a [choice] call on the matching row of the matrix. *)
Definition stream_of `{Generator} (K n : nat) (tp : array2 Q) (i : nat) (s : list nat) : Prop :=
  exists p g0 g1, rows tp !! i = Some p /\ choice g0 K n p = Ok (s, g1) /\
                  length s = n /\ Forall (fun x => x < K) s.

(** The loop invariant after sample [m] has been written: every iterator
    has lost as many draws as its state occurs among the first [m] labels,
    the labels written so far are the draws taken in order, and the rest of
    the array still holds its zeros. *)
Definition sampled (K n : nat) (strs : list (list nat)) (m : nat)
    (st : list (list nat) * list nat) : Prop :=
  let '(rs, sts) := st in
  length sts = n /\
  length rs = length strs /\
  (forall i strm, strs !! i = Some strm ->
     rs !! i = Some (drop (occurrences i (take m sts)) strm)) /\
  Forall (fun v => v < K) sts /\
  sts !! 0 = Some 0 /\
  sum_list (length <$> rs) + m = sum_list (length <$> strs) /\
  (forall s, 1 <= s <= m ->
     exists prev v strm, sts !! (s - 1) = Some prev /\ sts !! s = Some v /\
       strs !! prev = Some strm /\
       strm !! occurrences prev (take (s - 1) sts) = Some v).

(** The loop invariant once the chains below [i] have been handled: the
    rows of every sample at which one of them is active hold that chain's
    row of matching rank, and the other chains have not been asked yet. *)
Definition composed `{Generator} (bottoms : list HMM) (top : array2 Z) (n N i : nat)
    (st : array2 Q * list HMM) : Prop :=
  let '(stc, hmms) := st in
  shape0 stc = n /\ shape1 stc = N /\ length (rows stc) = n /\
  length hmms = length bottoms /\
  (forall j, i <= j -> hmms !! j = bottoms !! j) /\
  (forall j h, j < i -> bottoms !! j = Some h ->
     exists x h', generate_states h n = Ok (x, h') /\ hmms !! j = Some h') /\
  (forall t k, k < i -> t < n -> entry top t k = Some 1%Z ->
     exists h x h' row,
       bottoms !! k = Some h /\ generate_states h n = Ok (x, h') /\
       rows x !! rank top k t = Some row /\
       rows stc !! t = Some (map inject_Z row)).

(** ** The rest of [osl_dynamics/array_ops.py] *)

(** *** Trimming sequences to a common length ([align_arrays]) *)

(** A bound of a Python slice on a sequence of length [len]: a negative
    bound counts from the end, and every bound is clipped to the
    sequence. *)
Definition slice_bound (len : nat) (i : Z) : nat :=
  if (i <? 0)%Z then Z.to_nat (Z.of_nat len + i) else Nat.min len (Z.to_nat i).

(** [l[start:stop]]; an omitted bound is [None]. *)
Definition py_slice {A} (l : list A) (start stop : option Z) : list A :=
  let lo := from_option (slice_bound (length l)) 0 start in
  let hi := from_option (slice_bound (length l)) (length l) stop in
  take (hi - lo) (drop lo l).

(** [min(...)] over a generator of lengths: nothing to take the minimum
    of raises. *)
Definition py_min (l : list nat) : result nat :=
  match l with
  | [] => Raise (ValueError "min() arg is an empty sequence")
  | x :: l => Ok (foldr Nat.min x l)
  end.

(** [align_arrays] on its positional arguments [sequences] and its
    [alignment]: a sequence is the list of its items along the first axis.  [int(k / 2)] is [k / 2] rounded
    down, for every length a sequence in memory can have. *)
Definition align_arrays {A} (sequences : list (list A)) (alignment : string)
  : result (list (list A)) :=
  min_length ← py_min (length <$> sequences);
  if String.eqb alignment "left" then
    Ok (map (fun sequence => py_slice sequence None (Some (Z.of_nat min_length))) sequences)
  else if String.eqb alignment "right" then
    Ok (map (fun sequence => py_slice sequence (Some (- Z.of_nat min_length)%Z) None) sequences)
  else if String.eqb alignment "center" then
    let half_length := min_length / 2 in
    let mids := map (fun sequence => length sequence / 2) sequences in
    Ok (zip_with (fun sequence mid =>
                    py_slice sequence (Some (Z.of_nat mid - Z.of_nat half_length)%Z)
                                      (Some (Z.of_nat mid + Z.of_nat half_length)%Z))
                 sequences mids)
  else Raise (ValueError "Alignment must be left, right or center.").

(** *** The two-dimensional path of [get_one_hot] *)

(** The scan of [argmax] along a row: the position of the first entry that
    no later entry exceeds. *)
Fixpoint argmax_from (best : Z) (best_pos pos : nat) (row : list Z) : nat :=
  match row with
  | [] => best_pos
  | x :: row =>
      if (best <? x)%Z then argmax_from x pos (S pos) row
      else argmax_from best best_pos (S pos) row
  end.

(** [values.argmax(axis=1)]: an axis of length zero has no maximum. *)
Definition argmax_axis1 (values : array2 Z) : result (list nat) :=
  if shape1 values =? 0 then
    Raise (ValueError "attempt to get argmax of an empty sequence")
  else Ok (map (fun row => match row with
                           | [] => 0
                           | x :: row => argmax_from x 0 1 row
                           end) (rows values)).

(** [get_one_hot(values, n_states)] on a 2-D array: the labels are the
    positions of the row maxima, and the 1-D path is taken from there. *)
Definition get_one_hot_2d (values : array2 Z) (n_states : option nat) : result (array2 Z) :=
  values ← argmax_axis1 values;
  get_one_hot values n_states.

(** *** Dimension checks ([validate]) *)

(** [array[np.newaxis, ...]] on an array of the given shape: one more
    leading axis of length one, unless NumPy's limit is passed. *)
Definition newaxis (shape : list nat) : result (list nat) :=
  if NPY_MAXDIMS <? S (length shape) then Raise IndexError else Ok (1 :: shape).

(** [for i in range(k): array = array[np.newaxis, ...]]. *)
Fixpoint newaxes (k : nat) (shape : list nat) : result (list nat) :=
  match k with
  | O => Ok shape
  | S k => shape ← newaxis shape; newaxes k shape
  end.

(** [validate(array, correct_dimensionality, allow_dimensions,
    error_message)] on the shape of [array] (new axes are views: the data
    are untouched).  The loop over [allow_dimensions] reads the number of
    dimensions of the array as the earlier rounds left it. *)
Definition validate (shape : list nat) (correct_dimensionality : nat)
    (allow_dimensions : list nat) (error_message : string) : result (list nat) :=
  shape ← foldl (fun acc dimensionality =>
                   shape ← acc;
                   if length shape =? dimensionality
                   then newaxes (correct_dimensionality - dimensionality) shape
                   else Ok shape)
                (Ok shape) allow_dimensions;
  if negb (length shape =? correct_dimensionality) then Raise (ValueError error_message)
  else Ok shape.

(** *** Runs of [True] in a boolean array ([ezclump]) *)

(** [l.nonzero()[0]] of a 1-D boolean array: the positions holding [True],
    ascending. *)
Definition np_nonzero (l : list bool) : list nat :=
  filter (fun i => l !! i = Some true) (seq 0 (length l)).

(** [l[::2]]. *)
Fixpoint every_other {A} (l : list A) : list A :=
  match l with
  | [] => []
  | x :: l => x :: match l with
                   | [] => []
                   | _ :: l => every_other l
                   end
  end.

(** [l[start:stop:2]]. *)
Definition py_slice_step2 {A} (l : list A) (start stop : option Z) : list A :=
  every_other (py_slice l start stop).

(** [ezclump(binary_array)] on a 1-D array; a slice is the pair of its
    [start] and [stop].  Indexing an empty array or list raises. *)
Definition ezclump (binary_array : list bool) : result (list (nat * nat)) :=
  let size := length binary_array in
  let idx := map (fun i => i + 1)
                 (np_nonzero (zip_with xorb (py_slice binary_array (Some 1%Z) None)
                                            (py_slice binary_array None (Some (-1)%Z)))) in
  let finish (r : list (nat * nat)) : result (list (nat * nat)) :=
    last_item ← from_option Ok (Raise IndexError) (last binary_array);
    if (last_item : bool) then
      i ← from_option Ok (Raise IndexError) (last idx);
      Ok (r ++ [(i, size)])
    else Ok r in
  first_item ← from_option Ok (Raise IndexError) (binary_array !! 0);
  if (first_item : bool) then
    if length idx =? 0 then Ok [(0, size)]
    else
      i ← from_option Ok (Raise IndexError) (idx !! 0);
      finish ((0, i) :: zip (py_slice_step2 idx (Some 1%Z) (Some (-1)%Z))
                            (py_slice_step2 idx (Some 2%Z) None))
  else
    if length idx =? 0 then Ok []
    else finish (zip (py_slice_step2 idx None (Some (-1)%Z))
                     (py_slice_step2 idx (Some 1%Z) None)).

(** [slice_length(slice_)]: [stop - start], which can be negative. *)
Definition slice_length (slice_ : nat * nat) : Z := (Z.of_nat slice_.2 - Z.of_nat slice_.1)%Z.

(** ** The single-chain simulations ([HMM_MAR], [HMM_MVN], [HMM_Sine]) *)

Section SingleChain.
Context `{G : Generator}.

(** The three constructors treat their chain alike: it is built with the
    number of states of the observation model ([obs_n_modes], which is
    [self.obs_mod.n_modes], or [self.obs_mod.n_states] for [HMM_Sine]) and
    with the seed plus one, and it is sampled once; the observation model
    and the [Simulation] base class are outside this core. *)
Record HMM_MVN : Type := MkMVN {
  mvn_n_states : Z;
  mvn_hmm : HMM;
  mvn_state_time_course : array2 Z
}.

Definition HMM_MVN_init (n_samples : nat) (trans_prob : trans_prob_arg)
    (obs_n_modes : Z) (stay_prob : option Q) (random_seed : option Z) (entropy : Z)
  : result HMM_MVN :=
  let self_n_states := obs_n_modes in
  '(hmm, _) ← HMM_init trans_prob stay_prob (Some self_n_states)
                       (seed_plus random_seed 1) entropy;
  '(state_time_course, hmm) ← generate_states hmm n_samples;
  Ok (MkMVN self_n_states hmm state_time_course).

End SingleChain.

(** ** The constructor of the hierarchical simulation
       ([HierarchicalHMM_MVN.__init__]) *)

(** [str.lower()], on the ASCII letters: no other character is lowered to
    a letter of ["hmm"] or ["hsmm"], the only strings the result is
    compared with. *)
Definition ascii_lower (c : Ascii.ascii) : Ascii.ascii :=
  let n := Ascii.nat_of_ascii c in
  if (65 <=? n) && (n <=? 90) then Ascii.ascii_of_nat (n + 32) else c.

Fixpoint str_lower (s : string) : string :=
  match s with
  | EmptyString => EmptyString
  | String c s => String (ascii_lower c) (str_lower s)
  end.

Section HierarchyInit.
Context `{G : Generator}.

(** The semi-Markov class is outside this core: its constructor (called
    with [gamma_shape], [gamma_scale], [n_states], [random_seed]; the last
    argument here is the entropy an unseeded generator draws) and its
    [generate_states] are taken as given. *)
Variable HSMM : Type.
Variable HSMM_init : option Q -> option Q -> Z -> option Z -> Z -> result HSMM.
Variable HSMM_generate_states : HSMM -> nat -> result (array2 Z * HSMM).

(** The list comprehension that builds the bottom-level chains, one per
    index of [range(self.n_bottom_level_hmms)]; chain [i] draws the entropy
    [entropy i] when it has no seed. *)
Fixpoint build_bottom_level_hmms (bottom_level_trans_probs : list trans_prob_arg)
    (bottom_level_random_seeds : list (option Z))
    (bottom_level_stay_probs : list (option Q)) (n_states : option Z)
    (entropy : nat -> Z) (idx : list nat) : result (list HMM) :=
  match idx with
  | [] => Ok []
  | i :: idx =>
      trans_prob ← from_option Ok (Raise IndexError) (bottom_level_trans_probs !! i);
      random_seed ← from_option Ok (Raise IndexError) (bottom_level_random_seeds !! i);
      stay_prob ← from_option Ok (Raise IndexError) (bottom_level_stay_probs !! i);
      '(hmm, _) ← HMM_init trans_prob stay_prob n_states random_seed (entropy i);
      rest ← build_bottom_level_hmms bottom_level_trans_probs bottom_level_random_seeds
                                     bottom_level_stay_probs n_states entropy idx;
      Ok (hmm :: rest)
  end.

(** [HierarchicalHMM_MVN.__init__] from the defaults of the two lists to
    the hand-off to the observation model: the instance and its
    [state_time_course].  [n_states] is the argument (after the [n_modes]
    fallback), [obs_n_modes] is [self.obs_mod.n_modes]; the observation
    model itself and the [Simulation] base class are outside this core. *)
Definition HierarchicalHMM_MVN_init (n_samples : nat)
    (top_level_trans_prob : trans_prob_arg)
    (bottom_level_trans_probs : list trans_prob_arg)
    (n_states : option Z) (obs_n_modes : nat)
    (top_level_random_seed : option Z)
    (bottom_level_random_seeds : option (list (option Z)))
    (top_level_stay_prob : option Q)
    (bottom_level_stay_probs : option (list (option Q)))
    (top_level_hmm_type : string)
    (top_level_gamma_shape top_level_gamma_scale : option Q)
    (entropy_top : Z) (entropy_bottom : nat -> Z) (mem : nat -> nat -> Q)
  : result (array2 Q * HierarchicalHMM_MVN HSMM) :=
  let self_n_states := obs_n_modes in
  let bottom_level_stay_probs :=
    default (replicate (length bottom_level_trans_probs) None) bottom_level_stay_probs in
  let bottom_level_random_seeds :=
    default (replicate (length bottom_level_trans_probs) None) bottom_level_random_seeds in
  top_level_hmm ←
    (if String.eqb (str_lower top_level_hmm_type) "hmm" then
       '(hmm, _) ← HMM_init top_level_trans_prob top_level_stay_prob
                            (Some (Z.of_nat (length bottom_level_trans_probs)))
                            top_level_random_seed entropy_top;
       Ok (TopHMM hmm)
     else if String.eqb (str_lower top_level_hmm_type) "hsmm" then
       hsmm ← HSMM_init top_level_gamma_shape top_level_gamma_scale
                        (Z.of_nat (length bottom_level_trans_probs))
                        top_level_random_seed entropy_top;
       Ok (TopHSMM hsmm)
     else Raise (ValueError (String.append "Unsupported top_level_hmm_type: "
                                           top_level_hmm_type)));
  let self_n_bottom_level_hmms := length bottom_level_trans_probs in
  bottom_level_hmms ←
    build_bottom_level_hmms bottom_level_trans_probs bottom_level_random_seeds
                            bottom_level_stay_probs n_states entropy_bottom
                            (seq 0 self_n_bottom_level_hmms);
  hier_generate_states HSMM_generate_states
    (MkHier self_n_states top_level_hmm self_n_bottom_level_hmms bottom_level_hmms None)
    n_samples mem.

End HierarchyInit.

(** ** Vocabulary of the further properties *)

(** The positions, counted from [pos], of the items that differ from the
    item before them; [prev] is the item before the first. *)
Fixpoint change_points (pos : nat) (prev : bool) (b : list bool) : list nat :=
  match b with
  | [] => []
  | y :: b => (if xorb y prev then [pos] else []) ++ change_points (S pos) y b
  end.

(** The consecutive pairs of a list; an unpaired last item is dropped. *)
Fixpoint pairs_complete (l : list nat) : list (nat * nat) :=
  match l with
  | a :: b :: l => (a, b) :: pairs_complete l
  | _ => []
  end.

(** The runs of [True] of [b], whose first item sits at position [pos];
    [start] is where a run that is still open began. *)
Fixpoint clumps_from (pos : nat) (start : option nat) (b : list bool) : list (nat * nat) :=
  match b with
  | [] => match start with Some s => [(s, pos)] | None => [] end
  | true :: b => clumps_from (S pos) (Some (default pos start)) b
  | false :: b =>
      match start with
      | Some s => (s, pos) :: clumps_from (S pos) None b
      | None => clumps_from (S pos) None b
      end
  end.

(** What is known of the items before the position the scan has reached:
    an open run began at [s], holds [True] only, and has a [False] (or
    nothing) before it; without an open run the item before is [False]
    (or there is none). *)
Definition open_ok (pre : list bool) (start : option nat) : Prop :=
  match start with
  | Some s => s < length pre /\
              (forall t, s <= t < length pre -> pre !! t = Some true) /\
              (s = 0 \/ pre !! (s - 1) = Some false)
  | None => pre = [] \/ last pre = Some false
  end.


(** * Properties *)

(** ** The result monad and the loops *)

Lemma bind_Ok {A B} (f : A -> result B) (a : A) : (Ok a ≫= f) = f a.
Proof. reflexivity. Qed.

Lemma bind_Ok_inv {A B} (m : result A) (f : A -> result B) (b : B) :
  (m ≫= f) = Ok b -> exists a, m = Ok a /\ f a = Ok b.
Proof. destruct m as [a|e]; simpl; [eauto | discriminate]. Qed.

Lemma for_each_app {S} (body : S -> nat -> result S) (st : S) (l1 l2 : list nat) :
  for_each body st (l1 ++ l2) = (for_each body st l1 ≫= fun st' => for_each body st' l2).
Proof.
  revert st; induction l1 as [|i l1 IH]; intros st; simpl; [reflexivity|].
  destruct (body st i) as [st'|e]; simpl; [apply IH | reflexivity].
Qed.

(** ** The transition-matrix builder *)









(** *** The tolerance tests *)

Lemma Qltb_lt (x y : Q) : Qltb x y = true <-> (x < y)%Q.
Proof.
  unfold Qltb. rewrite negb_true_iff, <- not_true_iff_false, Qle_bool_iff.
  split; [apply Qnot_le_lt | apply Qlt_not_le].
Qed.

Lemma Qltb_ge (x y : Q) : Qltb x y = false <-> (y <= x)%Q.
Proof. unfold Qltb. rewrite negb_false_iff. apply Qle_bool_iff. Qed.

(** [np.any(abs(sums - ones) > 1e-12)] holds when some sum is off by more
    than the tolerance. *)
Lemma any_above_tol_spec (sums : list Q) (k : nat) :
  length sums = k ->
  any_above_tol (np_sub sums (replicate k 1%Q)) = true
  <-> Exists (fun s => (tol < Qabs (s - 1))%Q) sums.
Proof.
  intros Hk. unfold any_above_tol, np_sub.
  rewrite zip_with_replicate_r_eq by exact Hk.
  rewrite existsb_exists, Exists_exists. split.
  - intros (d & Hin & Hd). apply list_elem_of_In, list_elem_of_fmap in Hin as (s & -> & Hs).
    exists s. split; [exact Hs | apply Qltb_lt, Hd].
  - intros (s & Hs & Hd). exists (s - 1)%Q. split; [|apply Qltb_lt, Hd].
    apply list_elem_of_In, list_elem_of_fmap. exists s. split; [reflexivity | exact Hs].
Qed.

Lemma any_above_tol_false (sums : list Q) (k : nat) :
  length sums = k ->
  any_above_tol (np_sub sums (replicate k 1%Q)) = false
  <-> Forall (fun s => (Qabs (s - 1) <= tol)%Q) sums.
Proof.
  intros Hk. rewrite <- not_true_iff_false, (any_above_tol_spec _ _ Hk).
  rewrite <- Forall_Exists_neg. apply Forall_iff. intros s.
  split; [apply Qnot_lt_le | apply Qle_not_lt].
Qed.



(** *** The concrete generator meets the interface *)

Lemma LCG_draws_spec (a : nat) (p : list Q) (size : nat) (s : Z) :
  0 < a ->
  length (LCG.draws a p s size).1 = size /\
  Forall (fun x => x < a) (LCG.draws a p s size).1.
Proof.
  intros Ha. revert s; induction size as [|size IH]; intros s; simpl.
  - split; [reflexivity | constructor].
  - specialize (IH (LCG.step s)).
    destruct (LCG.draws a p (LCG.step s) size) as [xs s'']; simpl in *.
    destruct IH as [IH1 IH2]. split; [lia|].
    constructor; [|exact IH2]. unfold LCG.locate. lia.
Qed.

Lemma valid_pvec_pos (a : nat) (p : list Q) : valid_pvec a p -> 0 < a.
Proof.
  intros (Hlen & _ & Hsum). destruct p as [|x p]; [|simpl in Hlen; lia].
  exfalso. revert Hsum. apply Qlt_not_le. reflexivity.
Qed.

Lemma LCG_choice_ok (g : Z) (a size : nat) (p : list Q) :
  valid_pvec a p ->
  exists xs g', LCG.choice g a size p = Ok (xs, g') /\
                length xs = size /\ Forall (fun x => x < a) xs.
Proof.
  intros Hv. pose proof (valid_pvec_pos _ _ Hv) as Ha.
  destruct Hv as (Hlen & Hpos & Hsum).
  unfold LCG.choice.
  rewrite (proj2 (Nat.eqb_eq _ _) Hlen). cbn [negb].
  assert (E1 : forallb (fun x => Qle_bool 0 x) p = true).
  { apply forallb_forall. intros x Hx. apply Qle_bool_iff.
    apply (proj1 (Forall_forall _ _) Hpos), list_elem_of_In, Hx. }
  rewrite E1. cbn [negb].
  assert (E2 : Qltb LCG.atol (Qabs (np_sum p - 1)) = false).
  { apply Qltb_ge. eapply Qle_trans; [exact Hsum|]. discriminate. }
  rewrite E2.
  destruct (LCG_draws_spec a p size g Ha) as [H1 H2].
  destruct (LCG.draws a p g size) as [xs g'] eqn:E.
  exists xs, g'. auto.
Qed.

Definition LCG_generator : Generator :=
  {| rng := Z; seed_rng := fun s => s; choice := LCG.choice; choice_ok := LCG_choice_ok |}.

(** *** The constructor on each kind of argument *)

Section Builder.
Context `{G : Generator}.


Lemma HMM_init_array (a : ndarray) sp ns seed e :
  HMM_init (ArgArray a) sp ns seed e =
    (check_array a ≫= fun mw => Ok (MkHMM _ mw.1 (shape0 mw.1) (default_rng seed e), mw.2)).
Proof. unfold HMM_init; simpl. destruct (check_array a) as [[m w]|]; reflexivity. Qed.

Lemma HMM_init_list (l : list (list Q)) sp ns seed e :
  HMM_init (ArgList l) sp ns seed e =
    (np_ndarray l ≫= fun a => HMM_init (ArgArray a) sp ns seed e).
Proof. unfold HMM_init; simpl. destruct (np_ndarray l); reflexivity. Qed.








(** C10: a Python list of rows passed as [trans_prob] never yields an
    [HMM]: [np.ndarray(L)] takes [L] for a shape, so a non-empty list of
    rows is refused ([TypeError], or [ValueError] beyond [NPY_MAXDIMS]
    rows), and the empty list gives a 0-d array that fails the 2-D check.
    This holds also when the rows form a valid row-stochastic matrix. *)
Theorem list_spec_never_builds (l : list (list Q)) (sp : option Q) (ns : option Z)
    (seed : option Z) (e : Z) :
  exists err, HMM_init (ArgList l) sp ns seed e = Raise err /\
    (l <> [] -> length l <= NPY_MAXDIMS -> err = TypeError).
Proof.
  rewrite HMM_init_list. unfold np_ndarray.
  destruct (Nat.ltb_spec NPY_MAXDIMS (length l)) as [Hlt|Hle].
  - eexists; split; [reflexivity|]. intros _ Hle. lia.
  - destruct l as [|r l].
    + eexists; split; [reflexivity|]. intros Hne. contradiction.
    + eexists; split; [reflexivity|]. reflexivity.
Qed.

End Builder.

Section ExplicitMatrix.
Context `{G : Generator}.

Lemma length_sum_axis1 (m : array2 Q) : wf_array2 m -> length (sum_axis1 m) = shape0 m.
Proof. intros [Hl _]. unfold sum_axis1. rewrite length_map. exact Hl. Qed.


(** The double of [1e-12] is the one nearest to the rational [tol]: they
    differ by less than half a unit in the last place, [2^-93]. *)
Lemma tol_binary64_nearest : (Qabs (tol_binary64 - tol) < 1 # (2 ^ 93))%Q.
Proof. vm_compute. reflexivity. Qed.

(** A binary64 sum [s] between 1/2 and 2 is a multiple of [2^-53], the
    subtraction [s - 1] is exact, and so is its absolute value (a sum
    outside that range is off by a half or more); the double of [1e-12]
    has an odd 53-bit mantissa at exponent [-92], so it is no multiple of
    [2^-53]: a deviation of exactly the tolerance does not occur. *)
Lemma tol_binary64_off_grid (k : Z) : ~ (inject_Z k * (1 # (2 ^ 53)) == tol_binary64)%Q.
Proof.
  unfold Qeq, tol_binary64. cbn [Qnum Qden Qmult inject_Z]. intros H.
  assert (E : (k * 2 ^ 39 = 4951760157141521)%Z).
  { change (Z.pos (2 ^ 92)) with (2 ^ 53 * 2 ^ 39)%Z in H.
    change (Z.pos (1 * 2 ^ 53)) with (2 ^ 53)%Z in H.
    rewrite Z.mul_1_r in H. apply (Z.mul_cancel_l _ _ (2 ^ 53)%Z); [lia|]. lia. }
  apply (f_equal (fun z => z mod 2)%Z) in E.
  change (2 ^ 39)%Z with (2 * 2 ^ 38)%Z in E.
  rewrite Z.mul_assoc, (Z.mul_comm k 2), <- Z.mul_assoc, Z.mul_comm, Z.mod_mul in E by lia.
  vm_compute in E. discriminate E.
Qed.


End ExplicitMatrix.

(** *** Concrete runs of the builder *)

(** The spec's example: ["uniform"] with [stay_prob = 0.9] and three states. *)
Example uniform_example :
  match @HMM_init LCG_generator (ArgStr "uniform") (Some (9 # 10)) (Some 3%Z) (Some 0%Z) 0%Z with
  | Ok (h, _) => map (map Qred) (rows (trans_prob h))
  | Raise _ => []
  end
  = [[9 # 10; 1 # 20; 1 # 20]; [1 # 20; 9 # 10; 1 # 20]; [1 # 20; 1 # 20; 9 # 10]]%Q.
Proof. vm_compute. reflexivity. Qed.







(** ** The Markov-chain sampler *)

Lemma occurrences_snoc (k x : nat) (l : list nat) :
  occurrences k (l ++ [x]) = occurrences k l + (if decide (x = k) then 1 else 0).
Proof.
  unfold occurrences. rewrite filter_app, length_app. f_equal.
  rewrite filter_cons. case_decide; reflexivity.
Qed.

Lemma occurrences_le (k : nat) (l : list nat) : occurrences k l <= length l.
Proof. apply length_filter. Qed.

Lemma sum_list_insert_tail (rs : list (list nat)) (k x : nat) (it : list nat) :
  rs !! k = Some (x :: it) ->
  sum_list (length <$> <[k := it]> rs) + 1 = sum_list (length <$> rs).
Proof.
  revert k; induction rs as [|r rs IH]; intros [|k] Hk; simpl in *; try discriminate.
  - injection Hk as ->. simpl. lia.
  - specialize (IH k Hk).
    change (length r + sum_list (length <$> <[k := it]> rs) + 1
            = length r + sum_list (length <$> rs)).
    lia.
Qed.

Lemma basis_length (n k : nat) : length (basis n k) = n.
Proof. unfold basis. rewrite length_map. apply length_seq. Qed.

Lemma basis_lookup (n k j : nat) :
  j < n -> basis n k !! j = Some (if j =? k then 1%Z else 0%Z).
Proof.
  intros Hj. unfold basis.
  change (map ?f ?l) with (f <$> l).
  rewrite list_lookup_fmap, lookup_seq_lt by exact Hj. simpl.
  rewrite (Nat.eqb_sym k j). reflexivity.
Qed.

Lemma unit_row_basis (n k : nat) : k < n -> unit_row n k (basis n k).
Proof.
  intros Hk. split; [apply basis_length|]. split; [exact Hk|].
  intros j Hj. apply basis_lookup, Hj.
Qed.

Lemma np_eye_lookup (n k : nat) : k < n -> np_eye n !! k = Some (basis n k).
Proof.
  intros Hk. unfold np_eye.
  change (map ?f (seq 0 n)) with (f <$> seq 0 n).
  rewrite list_lookup_fmap, lookup_seq_lt by exact Hk. reflexivity.
Qed.

Lemma mapM_result_cons {A B} (f : A -> result B) (x : A) (l : list A) :
  mapM f (x :: l) = (f x ≫= fun y => mapM f l ≫= fun k => Ok (y :: k)).
Proof. reflexivity. Qed.

(** Encoding labels that lie inside the matrix never fails, and row [t] is
    the basis vector of label [t]. *)
Lemma get_one_hot_ok (values : list nat) (n : nat) :
  Forall (fun v => v < n) values ->
  get_one_hot values (Some n) = Ok (Array2 (length values) n (basis n <$> values)).
Proof.
  intros Hv. unfold get_one_hot, take_rows. rewrite bind_Ok.
  destruct (Nat.eqb_spec n 0) as [->|Hn].
  { destruct Hv as [|v values Hlt _]; [reflexivity | lia]. }
  assert (E : mapM (fun v => from_option Ok (Raise IndexError) (np_eye n !! v)) values
              = Ok (basis n <$> values)).
  { induction Hv as [|v values Hlt _ IH]; [reflexivity|].
    rewrite mapM_result_cons, (np_eye_lookup n v Hlt). cbn [from_option].
    rewrite bind_Ok, IH. reflexivity. }
  rewrite E. reflexivity.
Qed.

Section SamplerProps.
Context `{G : Generator}.

Lemma draw_streams_ok (g : rng) (K n : nat) (tp : array2 Q) (idx : list nat) :
  Forall (valid_pvec K) (rows tp) ->
  Forall (fun i => i < length (rows tp)) idx ->
  exists strs g', draw_streams g K n tp idx = Ok (strs, g') /\
                  Forall2 (stream_of K n tp) idx strs.
Proof.
  intros Hvalid Hidx. revert g.
  induction Hidx as [|i idx Hi _ IH]; intros g.
  - exists [], g. split; [reflexivity | constructor].
  - apply lookup_lt_is_Some_2 in Hi as [p Hp].
    pose proof (Forall_lookup_1 _ _ _ _ Hvalid Hp) as Hv.
    destruct (choice_ok g K n p Hv) as (xs & g1 & Hc & Hlen & Hrange).
    destruct (IH g1) as (strs & g' & Hd & Hall).
    exists (xs :: strs), g'. split.
    + cbn [draw_streams]. rewrite Hp. cbn [from_option]. rewrite bind_Ok, Hc, bind_Ok.
      cbn beta iota. rewrite Hd. reflexivity.
    + constructor; [|exact Hall]. exists p, g, g1. auto.
Qed.

Lemma sample_step_sampled (K n : nat) (strs : list (list nat)) (m : nat) st :
  length strs = K ->
  Forall (fun s => length s = n /\ Forall (fun x => x < K) s) strs ->
  S m < n ->
  sampled K n strs m st ->
  exists st', sample_step st (S m) = Ok st' /\ sampled K n strs (S m) st'.
Proof.
  intros HK Hstrs Hm. destruct st as [rs sts].
  intros (Hlen & Hrl & Hrs & Hlt & H0 & Hsum & Hhist).
  assert (Hprev : exists prev, sts !! m = Some prev).
  { apply lookup_lt_is_Some_2. lia. }
  destruct Hprev as [prev Hprev].
  pose proof (Forall_lookup_1 _ _ _ _ Hlt Hprev) as HprevK. cbn beta in HprevK.
  assert (Hstrm : exists strm, strs !! prev = Some strm).
  { apply lookup_lt_is_Some_2. lia. }
  destruct Hstrm as [strm Hstrm].
  destruct (Forall_lookup_1 _ _ _ _ Hstrs Hstrm) as [Hsl Hsr]. cbn beta in Hsl, Hsr.
  set (c := occurrences prev (take m sts)).
  assert (Hc : c <= m).
  { unfold c. etransitivity; [apply occurrences_le|]. rewrite length_take. lia. }
  assert (Hx : exists x, strm !! c = Some x).
  { apply lookup_lt_is_Some_2. lia. }
  destruct Hx as [x Hx].
  pose proof (Forall_lookup_1 _ _ _ _ Hsr Hx) as HxK. cbn beta in HxK.
  pose proof (Hrs prev strm Hstrm) as Hrprev. fold c in Hrprev.
  rewrite (drop_S _ _ _ Hx) in Hrprev.
  assert (Htake : take (S m) (<[S m := x]> sts) = take m sts ++ [prev]).
  { rewrite take_insert_ge by lia. apply take_S_r, Hprev. }
  exists (<[prev := drop (S c) strm]> rs, <[S m := x]> sts). split.
  - unfold sample_step. replace (S m - 1) with m by lia.
    rewrite Hprev. cbn [from_option]. rewrite bind_Ok.
    unfold next_rand. rewrite Hrprev. reflexivity.
  - unfold sampled. rewrite !length_insert.
    split; [exact Hlen|]. split; [exact Hrl|]. split; [|split; [|split; [|split]]].
    + intros i s Hs. rewrite Htake, occurrences_snoc.
      destruct (decide (prev = i)) as [->|Hne].
      * rewrite Hs in Hstrm. injection Hstrm as ->.
        rewrite list_lookup_insert_eq by (rewrite Hrl; eapply lookup_lt_Some, Hs).
        fold c. replace (c + 1) with (S c) by lia. reflexivity.
      * rewrite list_lookup_insert_ne by exact Hne.
        rewrite Nat.add_0_r. apply Hrs, Hs.
    + apply Forall_insert; assumption.
    + rewrite list_lookup_insert_ne by lia. exact H0.
    + pose proof (sum_list_insert_tail rs prev x (drop (S c) strm) Hrprev). lia.
    + intros s Hs. destruct (decide (s = S m)) as [->|Hne].
      * exists prev, x, strm. replace (S m - 1) with m by lia.
        rewrite list_lookup_insert_ne by lia.
        rewrite list_lookup_insert_eq by lia.
        rewrite take_insert_ge by lia. auto.
      * destruct (Hhist s ltac:(lia)) as (pv & v & sm & E1 & E2 & E3 & E4).
        exists pv, v, sm.
        rewrite !list_lookup_insert_ne by lia.
        rewrite take_insert_ge by lia. auto.
Qed.

Lemma sampling_loop (K n : nat) (strs : list (list nat)) (m : nat) :
  0 < K -> 0 < n ->
  length strs = K ->
  Forall (fun s => length s = n /\ Forall (fun x => x < K) s) strs ->
  m < n ->
  exists st, for_each sample_step (strs, replicate n 0) (seq 1 m) = Ok st /\
             sampled K n strs m st.
Proof.
  intros HK Hn Hlen Hstrs. induction m as [|m IH]; intros Hm.
  - eexists; split; [reflexivity|]. unfold sampled.
    rewrite length_replicate. repeat split; try reflexivity.
    + intros i strm Hs. rewrite Hs. reflexivity.
    + apply Forall_replicate, HK.
    + apply lookup_replicate_2, Hn.
    + lia.
    + intros s Hs. lia.
  - destruct (IH ltac:(lia)) as (st & Hrun & Hinv).
    destruct (sample_step_sampled K n strs m st Hlen Hstrs Hm Hinv) as (st' & Hstep & Hinv').
    exists st'. split; [|exact Hinv'].
    rewrite seq_S, for_each_app, Hrun, bind_Ok. cbn [for_each Nat.add].
    rewrite Hstep. reflexivity.
Qed.

End SamplerProps.

Section SamplerTheorems.
Context `{G : Generator}.

(** What [generate_states] has in its local variables when it returns,
    for a valid chain and at least one sample. *)
Lemma generate_states_locals_spec (h : HMM) (n : nat) :
  valid_hmm h -> 1 <= n ->
  exists l, generate_states_locals h n = Ok l /\
    Forall2 (stream_of (n_states h) n (trans_prob h)) (seq 0 (n_states h)) (streams l) /\
    sampled (n_states h) n (streams l) (n - 1) (rands l, states l).
Proof.
  intros (HK & _ & _ & Hrows & Hvalid) Hn.
  destruct (draw_streams_ok (_rng h) (n_states h) n (trans_prob h) (seq 0 (n_states h)))
    as (strs & g' & Hdraw & Hall); [exact Hvalid| |].
  { apply Forall_seq. intros j Hj. lia. }
  assert (Hlen : length strs = n_states h).
  { rewrite <- (Forall2_length _ _ _ Hall). apply length_seq. }
  assert (Hstrs : Forall (fun s => length s = n /\ Forall (fun x => x < n_states h) s) strs).
  { apply Forall_lookup. intros i s Hs.
    destruct (Forall2_lookup_r _ _ _ _ _ Hall Hs) as (j & _ & (p & g0 & g1 & _ & _ & H1 & H2)).
    auto. }
  destruct (sampling_loop (n_states h) n strs (n - 1) HK ltac:(lia) Hlen Hstrs ltac:(lia))
    as ([rs sts] & Hrun & Hinv).
  exists (MkLocals strs rs sts g'). split; [|split; [exact Hall | exact Hinv]].
  unfold generate_states_locals. rewrite Hdraw, bind_Ok. cbn beta iota.
  rewrite Hrun. reflexivity.
Qed.

Lemma generate_states_of_locals (h : HMM) (n : nat) (l : sampler_locals) :
  generate_states_locals h n = Ok l ->
  Forall (fun v => v < n_states h) (states l) ->
  generate_states h n
  = Ok (Array2 (length (states l)) (n_states h) (basis (n_states h) <$> states l),
        MkHMM _ (trans_prob h) (n_states h) (rng_after l)).
Proof.
  intros Hl Hlt. unfold generate_states.
  rewrite Hl, bind_Ok, (get_one_hot_ok _ _ Hlt). reflexivity.
Qed.

(** C1: for a valid chain and [n_samples >= 1], [generate_states] returns an
    array of shape [(n_samples, n_states)] whose row [t] is the unit basis
    vector of the label of sample [t]; the label of sample 0 is 0; the
    iterators are fed one stream per state, the draws of [choice] on that
    state's row of the transition matrix; and for every [t >= 1] the label
    of sample [t] is the next unconsumed draw of the stream of the label of
    sample [t - 1], that is the draw at the position given by how often
    that label occurs among the labels of the samples before [t - 1]. *)
Theorem generate_states_markov (h : HMM) (n_samples : nat) :
  valid_hmm h -> 1 <= n_samples ->
  exists l one_hot h',
    generate_states_locals h n_samples = Ok l /\
    generate_states h n_samples = Ok (one_hot, h') /\
    shape0 one_hot = n_samples /\ shape1 one_hot = n_states h /\
    wf_array2 one_hot /\
    length (states l) = n_samples /\
    (forall t, t < n_samples ->
       exists k row, states l !! t = Some k /\ rows one_hot !! t = Some row /\
                     unit_row (n_states h) k row) /\
    states l !! 0 = Some 0 /\
    Forall2 (stream_of (n_states h) n_samples (trans_prob h))
            (seq 0 (n_states h)) (streams l) /\
    (forall t, 1 <= t < n_samples ->
       exists prev k strm,
         states l !! (t - 1) = Some prev /\ states l !! t = Some k /\
         streams l !! prev = Some strm /\
         strm !! occurrences prev (take (t - 1) (states l)) = Some k).
Proof.
  intros Hv Hn.
  destruct (generate_states_locals_spec h n_samples Hv Hn) as (l & Hl & Hstreams & Hinv).
  destruct Hinv as (Hlen & _ & _ & Hlt & H0 & _ & Hhist).
  eexists l, _, _. split; [exact Hl|].
  split; [apply (generate_states_of_locals h n_samples l Hl Hlt)|]. cbn [shape0 shape1 rows].
  split; [exact Hlen|]. split; [reflexivity|]. split.
  { split; cbn [shape0 shape1 rows].
    - apply length_fmap.
    - apply Forall_fmap, Forall_forall. intros v _. apply basis_length. }
  split; [exact Hlen|]. split.
  { intros t Ht.
    destruct (lookup_lt_is_Some_2 (states l) t ltac:(lia)) as [k Hk].
    exists k, (basis (n_states h) k). split; [exact Hk|]. split.
    - rewrite list_lookup_fmap, Hk. reflexivity.
    - apply unit_row_basis. exact (Forall_lookup_1 _ _ _ _ Hlt Hk). }
  split; [exact H0|]. split; [exact Hstreams|].
  intros t Ht. apply Hhist. lia.
Qed.

(** C9: for a valid chain and [n_samples >= 1], [generate_states] does not
    raise: each of the [n_states] streams holds [n_samples] draws, the
    iterators are what is left of the streams after [n_samples - 1] draws
    were consumed in total (so no [next] ran out), and every label is
    below [n_states], so each row lookup in the identity matrix is in
    bounds. *)
Theorem generate_states_never_fails (h : HMM) (n_samples : nat) :
  valid_hmm h -> 1 <= n_samples ->
  exists l,
    generate_states_locals h n_samples = Ok l /\
    is_ok (generate_states h n_samples) = true /\
    length (streams l) = n_states h /\
    Forall (fun s => length s = n_samples) (streams l) /\
    (forall i strm, streams l !! i = Some strm ->
       exists c, c <= n_samples - 1 /\ rands l !! i = Some (drop c strm)) /\
    sum_list (length <$> rands l) + (n_samples - 1) = sum_list (length <$> streams l) /\
    Forall (fun k => k < n_states h) (states l) /\
    Forall (fun k => is_Some (np_eye (n_states h) !! k)) (states l).
Proof.
  intros Hv Hn.
  destruct (generate_states_locals_spec h n_samples Hv Hn) as (l & Hl & Hstreams & Hinv).
  destruct Hinv as (Hlen & _ & Hrs & Hlt & _ & Hsum & _).
  exists l. split; [exact Hl|]. split.
  { rewrite (generate_states_of_locals h n_samples l Hl Hlt). reflexivity. }
  split. { rewrite <- (Forall2_length _ _ _ Hstreams). apply length_seq. }
  split.
  { apply Forall_lookup. intros i s Hs.
    destruct (Forall2_lookup_r _ _ _ _ _ Hstreams Hs)
      as (j & _ & (p & g0 & g1 & _ & _ & H1 & _)). exact H1. }
  split.
  { intros i strm Hs. eexists. split; [|apply Hrs, Hs].
    etransitivity; [apply occurrences_le|]. rewrite length_take. lia. }
  split; [exact Hsum|]. split; [exact Hlt|].
  eapply Forall_impl; [exact Hlt|]. intros k Hk. cbn beta in Hk.
  rewrite (np_eye_lookup _ _ Hk). eexists; reflexivity.
Qed.

(** C7: two chains constructed independently (each with its own draw of
    operating-system entropy) from the same configuration with the same,
    given seed return the same result from their first [generate_states]
    call, whether an array or an exception. *)
Theorem seeded_chains_agree (trans_prob : trans_prob_arg) (stay_prob : option Q)
    (n_states : option Z) (seed : Z) (n_samples : nat) (entropy1 entropy2 : Z) :
  HMM_init trans_prob stay_prob n_states (Some seed) entropy1
    = HMM_init trans_prob stay_prob n_states (Some seed) entropy2 /\
  first_sample trans_prob stay_prob n_states (Some seed) entropy1 n_samples
    = first_sample trans_prob stay_prob n_states (Some seed) entropy2 n_samples.
Proof. split; reflexivity. Qed.

End SamplerTheorems.

(** *** What a successful call returns, valid chain or not *)

Lemma mapM_result_inv {A B} (f : A -> result B) (l : list A) (k : list B) :
  mapM f l = Ok k -> Forall2 (fun x y => f x = Ok y) l k.
Proof.
  revert k; induction l as [|x l IH]; intros k Hk.
  - injection Hk as <-. constructor.
  - rewrite mapM_result_cons in Hk.
    apply bind_Ok_inv in Hk as (y & Hy & Hk).
    apply bind_Ok_inv in Hk as (k' & Hk' & Hk).
    injection Hk as <-. constructor; [exact Hy | apply IH, Hk'].
Qed.

Lemma np_eye_lookup_inv (n k : nat) (row : list Z) :
  np_eye n !! k = Some row -> k < n /\ row = basis n k.
Proof.
  intros Hrow. assert (Hk : k < n).
  { apply lookup_lt_Some in Hrow. unfold np_eye in Hrow.
    rewrite length_map, length_seq in Hrow. exact Hrow. }
  split; [exact Hk|]. rewrite (np_eye_lookup n k Hk) in Hrow. congruence.
Qed.

Lemma basis_no_column (values : list nat) :
  basis 0 <$> values = replicate (length values) [].
Proof. induction values as [|v values IH]; [reflexivity|]. cbn. f_equal. exact IH. Qed.

(** What a successful encoding returns; the labels are below [n] as soon
    as there is a column. *)
Lemma get_one_hot_inv (values : list nat) (n : nat) (a : array2 Z) :
  get_one_hot values (Some n) = Ok a ->
  (0 < n -> Forall (fun v => v < n) values) /\
  a = Array2 (length values) n (basis n <$> values).
Proof.
  intros Ha. unfold get_one_hot, take_rows in Ha. rewrite bind_Ok in Ha.
  destruct (Nat.eqb_spec n 0) as [->|Hn].
  { rewrite bind_Ok in Ha. injection Ha as <-.
    split; [lia|]. rewrite basis_no_column. reflexivity. }
  apply bind_Ok_inv in Ha as (res & Hres & Ha). injection Ha as <-.
  apply mapM_result_inv in Hres.
  assert (H : Forall (fun v => v < n) values /\ res = basis n <$> values).
  { induction Hres as [|v row values res Hrow _ IH]; [split; [constructor | reflexivity]|].
    destruct (np_eye n !! v) as [r|] eqn:E; [|discriminate].
    cbn [from_option] in Hrow. injection Hrow as ->.
    destruct (np_eye_lookup_inv _ _ _ E) as [Hv ->].
    destruct IH as [IH1 ->]. split; [constructor; assumption | reflexivity]. }
  destruct H as [Hlt ->]. split; [intros _; exact Hlt | reflexivity].
Qed.

Lemma sample_step_length st i st' :
  sample_step st i = Ok st' -> length st'.2 = length st.2.
Proof.
  destruct st as [rs sts]. unfold sample_step. intros H.
  apply bind_Ok_inv in H as (prev & _ & H).
  apply bind_Ok_inv in H as ([x rs'] & _ & H).
  injection H as <-. cbn [snd]. apply length_insert.
Qed.

Lemma sampling_loop_length idx st st' :
  for_each sample_step st idx = Ok st' -> length st'.2 = length st.2.
Proof.
  revert st; induction idx as [|i idx IH]; intros st H.
  - injection H as <-. reflexivity.
  - cbn [for_each] in H. apply bind_Ok_inv in H as (st1 & H1 & H).
    rewrite (IH _ H). apply (sample_step_length _ _ _ H1).
Qed.

Section Composition.
Context `{G : Generator}.

Lemma HMM_init_built tp sp ns seed e :
  HMM_init tp sp ns seed e =
    (built_matrix tp sp ns ≫= fun mw =>
       Ok (MkHMM _ mw.1 (shape0 mw.1) (default_rng seed e), mw.2)).
Proof.
  destruct tp as [a|l|s|]; unfold HMM_init, built_matrix; cbn [mbind result_bind].
  - destruct (check_array a) as [[m w]|]; reflexivity.
  - destruct (np_ndarray l) as [a|]; [|reflexivity]. cbn [mbind result_bind].
    destruct (check_array a) as [[m w]|]; reflexivity.
  - destruct (build_named s sp ns); reflexivity.
  - case_bool_decide; reflexivity.
Qed.

Lemma generate_states_shape (h : HMM) (n : nat) (x : array2 Z) (h' : HMM) :
  generate_states h n = Ok (x, h') ->
  shape0 x = n /\ shape1 x = n_states h /\ wf_array2 x /\
  (0 < n_states h ->
   Forall (fun row => exists k, unit_row (n_states h) k row) (rows x)) /\
  trans_prob h' = trans_prob h /\ n_states h' = n_states h.
Proof.
  intros H. unfold generate_states in H.
  apply bind_Ok_inv in H as (l & Hl & H).
  apply bind_Ok_inv in H as (a & Ha & H). injection H as <- <-.
  apply get_one_hot_inv in Ha as [Hlt ->]. cbn [shape0 shape1 rows trans_prob n_states].
  assert (Hlen : length (states l) = n).
  { unfold generate_states_locals in Hl.
    apply bind_Ok_inv in Hl as ([strs g] & _ & Hl).
    apply bind_Ok_inv in Hl as ([rs sts] & Hrun & Hl). injection Hl as <-.
    cbn [states]. apply sampling_loop_length in Hrun. cbn [snd] in Hrun.
    rewrite Hrun. apply length_replicate. }
  split; [exact Hlen|]. split; [reflexivity|]. split; [|split; [|split; reflexivity]].
  - split; cbn [shape0 shape1 rows]; [apply length_fmap|].
    apply Forall_fmap, Forall_forall. intros v _. apply basis_length.
  - intros Hpos. apply Forall_fmap. eapply Forall_impl; [exact (Hlt Hpos)|].
    intros k Hk. exists k. apply unit_row_basis, Hk.
Qed.

Lemma shape0_setitem_last_first v a m :
  setitem_last_first v a = Ok m -> shape0 m = shape0 a.
Proof.
  unfold setitem_last_first. destruct (_ || _); [discriminate|].
  intros H. injection H as <-. reflexivity.
Qed.

Lemma build_named_shape s sp n m :
  build_named s sp (Some n) = Ok m -> shape0 m = Z.to_nat n.
Proof.
  unfold build_named.
  destruct (negb _); [discriminate|].
  case_bool_decide as Hone.
  { intros H. injection H as <-. injection Hone as ->. reflexivity. }
  destruct (String.eqb s "sequence").
  - destruct sp as [p|]; [|discriminate].
    unfold construct_sequence_trans_prob, square_of.
    destruct (Z.ltb_spec n 0) as [_|_]; [discriminate|]. rewrite bind_Ok.
    intros H. apply shape0_setitem_last_first in H. exact H.
  - intros H. apply bind_Ok_inv in H as (p & _ & H).
    unfold construct_uniform_trans_prob, square_of in H.
    apply bind_Ok_inv in H as (c & _ & H).
    destruct (Z.ltb_spec n 0) as [_|_]; [discriminate|]. rewrite bind_Ok in H.
    injection H as <-. reflexivity.
Qed.

(** What [self.n_states] of a constructed chain is: the size of an
    explicit matrix, and the [n_states] argument for a named spec. *)
Lemma HMM_init_n_states tp sp n seed e h w :
  HMM_init tp sp (Some n) seed e = Ok (h, w) ->
  _rng h = default_rng seed e /\
  n_states h = shape0 (trans_prob h) /\
  n_states h = match tp with
               | ArgArray (Nd2 m) => shape0 m
               | _ => Z.to_nat n
               end.
Proof.
  rewrite HMM_init_built. intros H.
  apply bind_Ok_inv in H as ([m w'] & Hb & H). injection H as <- <-.
  cbn [_rng n_states trans_prob fst].
  split; [reflexivity|]. split; [reflexivity|].
  destruct tp as [a|l|s|]; cbn [built_matrix] in Hb.
  - destruct a as [|v|m0|k]; try discriminate. unfold check_array in Hb.
    cbn [ndim Nat.eqb negb] in Hb.
    destruct (Nat.eqb_spec (shape0 m0) (shape1 m0)) as [Hsq|]; [|discriminate].
    cbn [negb] in Hb.
    destruct (any_above_tol _); [destruct (all_below_tol _); [|discriminate]|];
      injection Hb as <- _; [symmetry; exact Hsq | reflexivity].
  - apply bind_Ok_inv in Hb as (a & Ha & Hc). unfold np_ndarray in Ha.
    destruct (_ <? _); [discriminate|]. destruct l; [|discriminate].
    injection Ha as <-. discriminate Hc.
  - apply bind_Ok_inv in Hb as (m0 & Hm0 & Hb). injection Hb as <- _.
    apply (build_named_shape _ _ _ _ Hm0).
  - case_bool_decide as Hone; [|discriminate]. injection Hb as <- _.
    injection Hone as ->. reflexivity.
Qed.

(** C8: when [MS_HMM_MVN.__init__] reaches the hand-off to the observation
    model, [state_time_course] is the stack [[alpha, gamma]] of the first
    samples of two chains built from the same [trans_prob], [stay_prob] and
    [n_states]; the chains hold the same matrix and the same number of
    states [k]; each has its own generator: for a seed [s] the alpha chain
    is seeded with [s + 1] and the gamma chain with [s + 2], two different
    seeds, and without a seed each draws its own fresh entropy; each sample
    is what that chain alone returns, started from its generator as
    seeded; the stack has shape [[2, n_samples, k]]; as soon as there is a
    state every row is a unit basis vector (with no state the rows are
    empty); [k] is the [n_states] of the simulation for a named spec and
    the size of the matrix for an explicit one. *)
Theorem multi_time_scale_stack (n_samples : nat) (tp : trans_prob_arg) (n : Z)
    (sp : option Q) (seed : option Z) (e_alpha e_gamma : Z) (ms : MS_HMM_MVN) :
  MS_HMM_MVN_init n_samples tp n sp seed e_alpha e_gamma = Ok ms ->
  exists ha wa hg wg alpha gamma ha' hg',
    HMM_init tp sp (Some n)
             match seed with Some s => Some (s + 1)%Z | None => None end e_alpha
      = Ok (ha, wa) /\
    HMM_init tp sp (Some n)
             match seed with Some s => Some (s + 2)%Z | None => None end e_gamma
      = Ok (hg, wg) /\
    _rng ha = seed_rng match seed with Some s => (s + 1)%Z | None => e_alpha end /\
    _rng hg = seed_rng match seed with Some s => (s + 2)%Z | None => e_gamma end /\
    (forall s, seed = Some s ->
       exists sa sg, _rng ha = seed_rng sa /\ _rng hg = seed_rng sg /\ sa <> sg) /\
    generate_states ha n_samples = Ok (alpha, ha') /\
    generate_states hg n_samples = Ok (gamma, hg') /\
    state_time_course ms = [alpha; gamma] /\
    alpha_hmm ms = ha' /\ gamma_hmm ms = hg' /\
    trans_prob ha = trans_prob hg /\ n_states ha = n_states hg /\
    Forall (fun x => shape0 x = n_samples /\ shape1 x = n_states ha /\ wf_array2 x /\
                     (0 < n_states ha ->
                      Forall (fun row => exists k, unit_row (n_states ha) k row) (rows x)))
           (state_time_course ms) /\
    n_states ha = match tp with
                  | ArgArray (Nd2 m) => shape0 m
                  | _ => Z.to_nat n
                  end.
Proof.
  intros H. unfold MS_HMM_MVN_init in H.
  apply bind_Ok_inv in H as ([ha wa] & Ha & H).
  apply bind_Ok_inv in H as ([hg wg] & Hg & H).
  apply bind_Ok_inv in H as ([alpha ha'] & Hsa & H).
  apply bind_Ok_inv in H as ([gamma hg'] & Hsg & H).
  injection H as <-. cbn [state_time_course alpha_hmm gamma_hmm].
  destruct (HMM_init_n_states _ _ _ _ _ _ _ Ha) as (Hra & Hna & Hka).
  destruct (HMM_init_n_states _ _ _ _ _ _ _ Hg) as (Hrg & Hng & Hkg).
  assert (Hsame : trans_prob ha = trans_prob hg /\ n_states ha = n_states hg).
  { rewrite HMM_init_built in Ha, Hg.
    destruct (built_matrix tp sp (Some n)) as [[m w]|]; [|discriminate].
    injection Ha as <- _. injection Hg as <- _. split; reflexivity. }
  destruct Hsame as [Htp Hn].
  destruct (generate_states_shape _ _ _ _ Hsa) as (A0 & A1 & A2 & A3 & _).
  destruct (generate_states_shape _ _ _ _ Hsg) as (G0 & G1 & G2 & G3 & _).
  assert (Hsa' : _rng ha
                 = seed_rng match seed with Some s => (s + 1)%Z | None => e_alpha end).
  { rewrite Hra. destruct seed; reflexivity. }
  assert (Hsg' : _rng hg
                 = seed_rng match seed with Some s => (s + 2)%Z | None => e_gamma end).
  { rewrite Hrg. destruct seed; reflexivity. }
  exists ha, wa, hg, wg, alpha, gamma, ha', hg'.
  split; [destruct seed; exact Ha|]. split; [destruct seed; exact Hg|].
  split; [exact Hsa'|]. split; [exact Hsg'|].
  split.
  { intros s ->. exists (s + 1)%Z, (s + 2)%Z.
    split; [exact Hsa'|]. split; [exact Hsg' | lia]. }
  repeat (split; [assumption || reflexivity|]).
  split; [|exact Hka].
  constructor; [auto|]. constructor; [|constructor].
  rewrite Hn. auto.
Qed.

End Composition.

(** ** The hierarchical composer *)

(** Writing distinct rows one after the other: each indexed row receives its
    value and every other row is left alone. *)
Lemma scatter_rows {A} (idx : list nat) (vals : list A) (l : list A) :
  NoDup idx -> length vals = length idx ->
  Forall (fun t => t < length l) idx ->
  let l' := fold_left (fun rs tr => <[tr.1 := tr.2]> rs) (zip idx vals) l in
  length l' = length l /\
  (forall j t, idx !! j = Some t -> l' !! t = vals !! j) /\
  (forall t, t ∉ idx -> l' !! t = l !! t).
Proof.
  revert vals l. induction idx as [|t0 idx IH]; intros vals l Hnd Hlen Hlt.
  - cbn. split; [reflexivity|]. split; [intros j t Hj; discriminate | reflexivity].
  - destruct vals as [|v0 vals]; [discriminate|]. cbn [zip zip_with fold_left fst snd].
    apply NoDup_cons in Hnd as [Hnotin Hnd].
    apply Forall_cons in Hlt as [Ht0 Hlt].
    destruct (IH vals (<[t0 := v0]> l) Hnd ltac:(simpl in Hlen; lia)
                ltac:(rewrite length_insert; exact Hlt)) as (L & Hin & Hout).
    cbn zeta in L, Hin, Hout. cbn zeta.
    split; [rewrite L; apply length_insert|]. split.
    + intros [|j] t Hj; cbn in Hj.
      * injection Hj as <-. rewrite (Hout t0 Hnotin).
        apply list_lookup_insert_eq, Ht0.
      * apply (Hin j t Hj).
    + intros t Ht. apply not_elem_of_cons in Ht as [Hne Ht].
      rewrite (Hout t Ht). apply list_lookup_insert_ne. congruence.
Qed.

(** In an ascending enumeration filtered by [P], an element that satisfies
    [P] sits at the position given by how many smaller ones satisfy [P]. *)
Lemma filter_seq_position (P : nat -> Prop) `{forall x, Decision (P x)} (n t : nat) :
  t < n -> P t ->
  filter P (seq 0 n) !! length (filter P (seq 0 t)) = Some t.
Proof.
  intros Ht HP.
  replace n with (t + S (n - t - 1)) by lia.
  rewrite seq_app, filter_app. cbn [seq].
  rewrite filter_cons_True by exact HP.
  rewrite lookup_app_r by lia. rewrite Nat.sub_diag. reflexivity.
Qed.

Lemma filter_seq_length (P : nat -> Prop) `{forall x, Decision (P x)} (n t : nat) :
  t < n -> P t ->
  length (filter P (seq 0 t)) < length (filter P (seq 0 n)).
Proof.
  intros Ht HP. eapply lookup_lt_Some. apply filter_seq_position; assumption.
Qed.

Lemma unit_row_one (n k k' : nat) (row : list Z) :
  unit_row n k row -> row !! k' = Some 1%Z -> k' = k.
Proof.
  intros (Hlen & Hk & Hrow) H1.
  assert (Hk' : k' < n) by (rewrite <- Hlen; eapply lookup_lt_Some, H1).
  rewrite (Hrow k' Hk') in H1.
  destruct (Nat.eqb_spec k' k); [assumption | discriminate].
Qed.

(** Column [i] of a well-formed array holds a one at [t] exactly when label
    [i] is active at [t]. *)
Lemma column_active (top : array2 Z) (i t : nat) :
  wf_array2 top -> i < shape1 top ->
  (map (fun r => nth i r 0%Z) (rows top) !! t = Some 1%Z) <-> entry top t i = Some 1%Z.
Proof.
  intros [_ Hrows] Hi. unfold entry.
  change (map ?f ?l) with (f <$> l). rewrite list_lookup_fmap.
  destruct (rows top !! t) as [r|] eqn:Er; cbn; [|tauto].
  pose proof (Forall_lookup_1 _ _ _ _ Hrows Er) as Hlen. cbn beta in Hlen.
  destruct (lookup_lt_is_Some_2 r i ltac:(lia)) as [v Hv].
  rewrite Hv. rewrite (nth_lookup_Some _ _ _ _ Hv). tauto.
Qed.

Section HierarchyProps.
Context `{G : Generator}.

Lemma generate_states_valid (h : HMM) (n : nat) :
  valid_hmm h -> 1 <= n -> exists x h', generate_states h n = Ok (x, h').
Proof.
  intros Hv Hn.
  destruct (generate_states_locals_spec h n Hv Hn) as (l & Hl & _ & Hinv).
  destruct Hinv as (_ & _ & _ & Hlt & _).
  eexists _, _. apply (generate_states_of_locals h n l Hl Hlt).
Qed.

Section Loop.
Variables (bottoms : list HMM) (top : array2 Z) (n N K : nat).
Hypothesis Hn : 1 <= n.
Hypothesis HK : length bottoms = K.
Hypothesis Hbot : Forall (fun h => valid_hmm h /\ n_states h = N) bottoms.
Hypothesis Htop0 : shape0 top = n.
Hypothesis Htop1 : shape1 top = K.
Hypothesis Hwf : wf_array2 top.
Hypothesis Hhot : Forall (fun row => exists k, unit_row K k row) (rows top).

Lemma active_unique (t k k' : nat) :
  entry top t k = Some 1%Z -> entry top t k' = Some 1%Z -> k = k'.
Proof.
  unfold entry. intros H1 H2.
  destruct (rows top !! t) as [r|] eqn:Er; [|discriminate].
  destruct (Forall_lookup_1 _ _ _ _ Hhot Er) as [k0 Hu].
  rewrite (unit_row_one _ _ _ _ Hu H1), (unit_row_one _ _ _ _ Hu H2). reflexivity.
Qed.

Lemma time_points_active_eq (i : nat) :
  i < K ->
  argwhere_eq 1 (map (fun r => nth i r 0%Z) (rows top))
  = filter (fun t => entry top t i = Some 1%Z) (seq 0 n).
Proof.
  intros Hi. unfold argwhere_eq. rewrite length_map.
  destruct Hwf as [Hl _]. rewrite Hl, Htop0.
  apply list_filter_iff. intros t. apply column_active; [exact Hwf | lia].
Qed.

Lemma bottom_step_composed (i : nat) st :
  i < K -> composed bottoms top n N i st ->
  exists st', bottom_step top n st i = Ok st' /\ composed bottoms top n N (S i) st'.
Proof.
  intros Hi. destruct st as [stc hmms].
  intros (S0 & S1 & SL & HL & Huntouched & Hasked & Hdone).
  destruct (lookup_lt_is_Some_2 bottoms i ltac:(lia)) as [h Hh].
  destruct (Forall_lookup_1 _ _ _ _ Hbot Hh) as [Hv HN].
  destruct (generate_states_valid h n Hv Hn) as (x & h1 & Hgen).
  destruct (generate_states_shape _ _ _ _ Hgen) as (X0 & X1 & [XL _] & _).
  rewrite HN in X1. rewrite X0 in XL.
  set (tpa := filter (fun t => entry top t i = Some 1%Z) (seq 0 n)).
  assert (Hnd : NoDup tpa) by (apply NoDup_filter, NoDup_seq).
  assert (Hin : forall t, t ∈ tpa <-> entry top t i = Some 1%Z /\ t < n).
  { intros t. unfold tpa. rewrite list_elem_of_filter, elem_of_seq.
    split; intros [? ?]; split; auto; lia. }
  assert (Hlen : length tpa <= n).
  { unfold tpa. etransitivity; [apply length_filter|]. rewrite length_seq. lia. }
  set (new_rows := map (fun j => map inject_Z (default [] (take (length tpa) (rows x) !! j)))
                       (seq 0 (length tpa))).
  assert (Hset : setitem_rows stc tpa (slice_rows (length tpa) x)
                 = Ok (Array2 n N (fold_left (fun rs tr => <[tr.1 := tr.2]> rs)
                                             (zip tpa new_rows) (rows stc)))).
  { unfold setitem_rows.
    assert (E : forallb (fun t => t <? shape0 stc) tpa = true).
    { apply forallb_forall. intros t Ht. apply list_elem_of_In, Hin in Ht.
      apply Nat.ltb_lt. lia. }
    rewrite E. cbn [negb]. unfold broadcast_rows, slice_rows. cbn [shape0 shape1 rows].
    rewrite X0, X1, S0, S1, (Nat.min_l _ _ Hlen), !Nat.eqb_refl.
    cbn [orb negb]. rewrite bind_Ok. reflexivity. }
  exists (Array2 n N (fold_left (fun rs tr => <[tr.1 := tr.2]> rs)
                                (zip tpa new_rows) (rows stc)),
          <[i := h1]> hmms).
  split.
  - unfold bottom_step, get_column. rewrite Htop1.
    destruct (Nat.leb_spec K i) as [?|_]; [lia|]. rewrite bind_Ok.
    rewrite (time_points_active_eq i Hi). fold tpa.
    rewrite (Huntouched i (Nat.le_refl i)), Hh. cbn [from_option].
    rewrite bind_Ok, Hgen, bind_Ok. cbn beta iota.
    rewrite Hset. reflexivity.
  - destruct (scatter_rows tpa new_rows (rows stc) Hnd) as (L & Hput & Hkeep).
    { unfold new_rows. rewrite length_map. apply length_seq. }
    { apply Forall_forall. intros t Ht. apply Hin in Ht. lia. }
    cbn zeta in L, Hput, Hkeep.
    unfold composed. cbn [shape0 shape1 rows].
    split; [reflexivity|]. split; [reflexivity|]. split; [lia|].
    split; [rewrite length_insert; exact HL|]. split; [|split].
    + intros j Hj. rewrite list_lookup_insert_ne by lia. apply Huntouched. lia.
    + intros j h0 Hj Hh0. destruct (decide (j = i)) as [->|Hne].
      * rewrite Hh in Hh0. injection Hh0 as <-. exists x, h1. split; [exact Hgen|].
        apply list_lookup_insert_eq. lia.
      * rewrite list_lookup_insert_ne by congruence. apply Hasked; [lia | exact Hh0].
    + intros t k Hk Ht Hact. destruct (decide (k = i)) as [->|Hne].
      * assert (Hpos : tpa !! rank top i t = Some t).
        { unfold rank, tpa. apply (filter_seq_position _ n t Ht Hact). }
        pose proof (lookup_lt_Some _ _ _ Hpos) as Hr.
        destruct (lookup_lt_is_Some_2 (rows x) (rank top i t) ltac:(lia)) as [row Hrow].
        exists h, x, h1, row. split; [exact Hh|]. split; [exact Hgen|].
        split; [exact Hrow|].
        rewrite (Hput _ _ Hpos). unfold new_rows.
        change (map ?f (seq 0 ?m)) with (f <$> seq 0 m).
        rewrite list_lookup_fmap, lookup_seq_lt by exact Hr. cbn.
        rewrite lookup_take_lt by exact Hr. rewrite Hrow. reflexivity.
      * destruct (Hdone t k ltac:(lia) Ht Hact) as (h0 & x0 & h0' & row & E1 & E2 & E3 & E4).
        exists h0, x0, h0', row. repeat (split; [assumption|]).
        rewrite Hkeep; [exact E4|].
        intros Hmem. apply Hin in Hmem as [Hact' _].
        apply Hne. apply (active_unique t k i Hact Hact').
Qed.

Lemma bottom_loop (mem : nat -> nat -> Q) (i : nat) :
  i <= K ->
  exists st, for_each (bottom_step top n) (np_empty mem n N, bottoms) (seq 0 i) = Ok st /\
             composed bottoms top n N i st.
Proof.
  induction i as [|i IH]; intros Hi.
  - eexists; split; [reflexivity|]. unfold composed, np_empty. cbn [shape0 shape1 rows].
    repeat split; try reflexivity.
    + rewrite length_map. apply length_seq.
    + intros j h Hj. lia.
    + intros t k Hk. lia.
  - destruct (IH ltac:(lia)) as (st & Hrun & Hinv).
    destruct (bottom_step_composed i st ltac:(lia) Hinv) as (st' & Hstep & Hinv').
    exists st'. split; [|exact Hinv'].
    rewrite seq_S, for_each_app, Hrun, bind_Ok. cbn [for_each Nat.add].
    rewrite Hstep. reflexivity.
Qed.

End Loop.

End HierarchyProps.

(** C2, with the conditions it needs: for a hierarchy with one bottom-level
    chain per top-level label, every bottom-level chain valid and over the
    [n_states] of the simulation, and the top-level chain, Markov or
    semi-Markov, returning a one-hot time course of [n_samples] rows over
    exactly those labels, and for [n_samples >= 1], [generate_states]
    returns an array of exactly [n_samples] rows, and for every sample [t]
    at which label [k] is active the row [t] is row [r] of the full-length
    ([n_samples] rows) sample of bottom-level chain [k], where [r] is the
    rank of [t] among the samples at which [k] is active; [r] is below the
    number of those samples, so only that many leading rows of the chain's
    sample are used.  The constructor does not establish these conditions
    for every configuration it accepts. *)
Theorem hierarchical_generate_states `{G : Generator} (HSMM : Type)
    (HSMM_generate_states : HSMM -> nat -> result (array2 Z * HSMM))
    (self : HierarchicalHMM_MVN HSMM) (n_samples : nat) (mem : nat -> nat -> Q)
    (top_stc : array2 Z) (top' : top_level HSMM) :
  1 <= n_samples ->
  length (bottom_level_hmms self) = n_bottom_level_hmms self ->
  Forall (fun h => valid_hmm h /\ n_states h = hier_n_states self) (bottom_level_hmms self) ->
  top_generate_states HSMM_generate_states (top_level_hmm self) n_samples = Ok (top_stc, top') ->
  shape0 top_stc = n_samples ->
  shape1 top_stc = n_bottom_level_hmms self ->
  wf_array2 top_stc ->
  Forall (fun row => exists k, unit_row (n_bottom_level_hmms self) k row) (rows top_stc) ->
  exists stc self',
    hier_generate_states HSMM_generate_states self n_samples mem = Ok (stc, self') /\
    shape0 stc = n_samples /\ shape1 stc = hier_n_states self /\
    length (rows stc) = n_samples /\
    top_level_stc self' = Some top_stc /\
    (forall k h, bottom_level_hmms self !! k = Some h ->
       exists x h', generate_states h n_samples = Ok (x, h') /\ shape0 x = n_samples /\
                    bottom_level_hmms self' !! k = Some h') /\
    (forall t, t < n_samples -> exists k, active top_stc k t) /\
    (forall t k, t < n_samples -> active top_stc k t ->
       exists h x h' row,
         bottom_level_hmms self !! k = Some h /\
         generate_states h n_samples = Ok (x, h') /\
         shape0 x = n_samples /\
         rank top_stc k t < rank top_stc k n_samples /\
         rows x !! rank top_stc k t = Some row /\
         rows stc !! t = Some (map inject_Z row)).
Proof.
  intros Hn HK Hbot Htop T0 T1 Twf Thot.
  destruct (bottom_loop (bottom_level_hmms self) top_stc n_samples (hier_n_states self)
              (n_bottom_level_hmms self) Hn HK Hbot T0 T1 Twf Thot mem
              (n_bottom_level_hmms self) (Nat.le_refl _))
    as ([stc hmms] & Hrun & Hinv).
  destruct Hinv as (S0 & S1 & SL & _ & _ & Hasked & Hdone).
  eexists stc, _. split.
  { unfold hier_generate_states. rewrite Htop, bind_Ok. cbn beta iota.
    rewrite Hrun. reflexivity. }
  cbn [top_level_stc bottom_level_hmms].
  split; [exact S0|]. split; [exact S1|]. split; [exact SL|]. split; [reflexivity|].
  split.
  { intros k h Hh.
    destruct (Hasked k h ltac:(rewrite <- HK; eapply lookup_lt_Some, Hh) Hh)
      as (x & h' & Hgen & Hh').
    exists x, h'. split; [exact Hgen|]. split; [|exact Hh'].
    apply (generate_states_shape _ _ _ _ Hgen). }
  split.
  - intros t Ht. destruct Twf as [TL Trows].
    destruct (lookup_lt_is_Some_2 (rows top_stc) t ltac:(lia)) as [r Hr].
    destruct (Forall_lookup_1 _ _ _ _ Thot Hr) as (k & Hlen & Hk & Hrow).
    exists k. unfold active, entry. rewrite Hr. cbn.
    rewrite (Hrow k Hk), Nat.eqb_refl. reflexivity.
  - intros t k Ht Hact.
    assert (Hk : k < n_bottom_level_hmms self).
    { unfold active, entry in Hact.
      destruct (rows top_stc !! t) as [r|] eqn:Er; [|discriminate]. cbn in Hact.
      destruct Twf as [_ Trows].
      pose proof (Forall_lookup_1 _ _ _ _ Trows Er) as Hlen. cbn beta in Hlen.
      apply lookup_lt_Some in Hact. lia. }
    destruct (Hdone t k Hk Ht Hact) as (h & x & h' & row & E1 & E2 & E3 & E4).
    exists h, x, h', row.
    split; [exact E1|]. split; [exact E2|].
    split; [apply (generate_states_shape _ _ _ _ E2)|].
    split; [|split; assumption].
    unfold rank. apply (filter_seq_length _ n_samples t Ht Hact).
Qed.

(** ** From a valid matrix to a running simulation *)

Section ValidMatrix.
Context `{G : Generator}.

(** An explicit square matrix of valid probability vectors is stored as it
    is, and the chain built from it is valid. *)
Lemma valid_matrix_builds (m : array2 Q) (sp : option Q) (ns : option Z)
    (seed : option Z) (e : Z) :
  wf_array2 m -> shape0 m = shape1 m -> 0 < shape0 m ->
  Forall (valid_pvec (shape0 m)) (rows m) ->
  exists h, HMM_init (ArgArray (Nd2 m)) sp ns seed e = Ok (h, []) /\
            trans_prob h = m /\ valid_hmm h.
Proof.
  intros Hwf Hsq Hpos Hrows.
  assert (Hsums : Forall (fun s => (Qabs (s - 1) <= tol)%Q) (sum_axis1 m)).
  { unfold sum_axis1. change (map np_sum (rows m)) with (np_sum <$> rows m).
    apply Forall_fmap. eapply Forall_impl; [exact Hrows|].
    intros r (_ & _ & Hr). exact Hr. }
  apply (any_above_tol_false _ _ (length_sum_axis1 m Hwf)) in Hsums.
  rewrite HMM_init_array. unfold check_array. cbn [ndim Nat.eqb negb].
  rewrite (proj2 (Nat.eqb_eq _ _) Hsq). cbn [negb]. rewrite Hsums, bind_Ok.
  eexists; split; [reflexivity|]. cbn [fst snd trans_prob]. split; [reflexivity|].
  unfold valid_hmm. cbn [n_states trans_prob].
  destruct Hwf as [Hlen _]. auto.
Qed.

(** With such a matrix and at least one sample the multi-time-scale
    simulation reaches the hand-off to its observation model. *)
Lemma multi_time_scale_builds (n_samples : nat) (m : array2 Q) (n : Z)
    (sp : option Q) (seed : option Z) (e_alpha e_gamma : Z) :
  1 <= n_samples ->
  wf_array2 m -> shape0 m = shape1 m -> 0 < shape0 m ->
  Forall (valid_pvec (shape0 m)) (rows m) ->
  exists ms, MS_HMM_MVN_init n_samples (ArgArray (Nd2 m)) n sp seed e_alpha e_gamma = Ok ms.
Proof.
  intros Hn Hwf Hsq Hpos Hrows.
  destruct (valid_matrix_builds m sp (Some n) (seed_plus seed 1) e_alpha Hwf Hsq Hpos Hrows)
    as (ha & Ha & _ & Hva).
  destruct (valid_matrix_builds m sp (Some n) (seed_plus seed 2) e_gamma Hwf Hsq Hpos Hrows)
    as (hg & Hg & _ & Hvg).
  destruct (generate_states_valid ha n_samples Hva Hn) as (alpha & ha' & Hsa).
  destruct (generate_states_valid hg n_samples Hvg Hn) as (gamma & hg' & Hsg).
  eexists. unfold MS_HMM_MVN_init.
  rewrite Ha, bind_Ok. cbn beta iota. rewrite Hg, bind_Ok. cbn beta iota.
  rewrite Hsa, bind_Ok. cbn beta iota. rewrite Hsg, bind_Ok. reflexivity.
Qed.

End ValidMatrix.

(** ** Concrete runs of the sampler and of the composers *)

Lemma is_ok_inv {A} (r : result A) : is_ok r = true -> exists a, r = Ok a.
Proof. destruct r as [a|e]; [eauto | discriminate]. Qed.

Definition uniform3 : array2 Q :=
  Array2 3 3 [[1 # 3; 1 # 3; 1 # 3]; [1 # 3; 1 # 3; 1 # 3]; [1 # 3; 1 # 3; 1 # 3]]%Q.

Definition coin2 : array2 Q := Array2 2 2 [[1 # 2; 1 # 2]; [1 # 2; 1 # 2]]%Q.

Definition chain3 (seed : Z) : @HMM LCG_generator := MkHMM LCG_generator uniform3 3 seed.

Definition chain2 (seed : Z) : @HMM LCG_generator := MkHMM LCG_generator coin2 2 seed.

Lemma valid_pvec_third : valid_pvec 3 [1 # 3; 1 # 3; 1 # 3]%Q.
Proof.
  split; [reflexivity|]. split.
  - repeat (constructor; [vm_compute; discriminate|]). constructor.
  - vm_compute. discriminate.
Qed.

Lemma valid_pvec_half : valid_pvec 2 [1 # 2; 1 # 2]%Q.
Proof.
  split; [reflexivity|]. split.
  - repeat (constructor; [vm_compute; discriminate|]). constructor.
  - vm_compute. discriminate.
Qed.

Lemma valid_chain3 (seed : Z) : valid_hmm (chain3 seed).
Proof.
  unfold valid_hmm, chain3, uniform3. cbn [n_states trans_prob shape0 shape1 rows].
  split; [lia|]. do 3 (split; [reflexivity|]).
  repeat (constructor; [exact valid_pvec_third|]). constructor.
Qed.

Lemma valid_chain2 (seed : Z) : valid_hmm (chain2 seed).
Proof.
  unfold valid_hmm, chain2, coin2. cbn [n_states trans_prob shape0 shape1 rows].
  split; [lia|]. do 3 (split; [reflexivity|]).
  repeat (constructor; [exact valid_pvec_half|]). constructor.
Qed.

(** A run of twelve samples: the labels, and what is left of each stream. *)
Example chain3_run :
  match generate_states_locals (chain3 7) 12 with
  | Ok l => (states l, length <$> rands l)
  | Raise _ => ([], [])
  end = ([0; 1; 2; 1; 2; 1; 0; 0; 0; 2; 2; 1], [8; 9; 8]).
Proof. vm_compute. reflexivity. Qed.

(** Without a seed two constructions draw different entropy, and their
    first samples can differ. *)
Example unseeded_chains_may_differ :
  @first_sample LCG_generator (ArgStr "uniform") None (Some 3%Z) None 7%Z 6
  <> @first_sample LCG_generator (ArgStr "uniform") None (Some 3%Z) None 8%Z 6.
Proof.
  intros H.
  assert (E : (rows <$> match @first_sample LCG_generator (ArgStr "uniform") None
                                 (Some 3%Z) None 7%Z 6 with Ok x => Some x | _ => None end)
            = (rows <$> match @first_sample LCG_generator (ArgStr "uniform") None
                                 (Some 3%Z) None 8%Z 6 with Ok x => Some x | _ => None end))
    by (rewrite H; reflexivity).
  vm_compute in E. discriminate E.
Qed.

Lemma generate_states_markov_witness :
  valid_hmm (chain3 7) /\ 1 <= 12 /\
  exists one_hot h', generate_states (chain3 7) 12 = Ok (one_hot, h') /\
                     shape0 one_hot = 12 /\ shape1 one_hot = 3.
Proof.
  assert (Hn : 1 <= 12) by lia.
  split; [apply valid_chain3|]. split; [exact Hn|].
  destruct (generate_states_markov (chain3 7) 12 (valid_chain3 7) Hn)
    as (l & x & h' & _ & Hg & H0 & H1 & _).
  exists x, h'. auto.
Defined.

Lemma generate_states_never_fails_witness :
  valid_hmm (chain3 7) /\ 1 <= 12 /\
  is_ok (generate_states (chain3 7) 12) = true.
Proof.
  assert (Hn : 1 <= 12) by lia.
  split; [apply valid_chain3|]. split; [exact Hn|].
  destruct (generate_states_never_fails (chain3 7) 12 (valid_chain3 7) Hn)
    as (l & _ & Hok & _).
  exact Hok.
Defined.

Lemma multi_time_scale_stack_witness :
  exists ms,
    @MS_HMM_MVN_init LCG_generator 5 (ArgStr "uniform") 3%Z (Some (9 # 10)) (Some 0%Z) 0%Z 0%Z
    = Ok ms /\
    length (state_time_course ms) = 2.
Proof.
  assert (E : is_ok (@MS_HMM_MVN_init LCG_generator 5 (ArgStr "uniform") 3%Z (Some (9 # 10))
                       (Some 0%Z) 0%Z 0%Z) = true) by (vm_compute; reflexivity).
  destruct (is_ok_inv _ E) as [ms Hms].
  exists ms. split; [exact Hms|].
  destruct (multi_time_scale_stack _ _ _ _ _ _ _ _ Hms)
    as (ha & wa & hg & wg & alpha & gamma & ha' & hg'
        & _ & _ & _ & _ & _ & _ & _ & Hstack & _).
  rewrite Hstack. reflexivity.
Defined.

(** The same specification and the same seed, two different samples: over
    eight samples the alpha chain (seeded 1) and the gamma chain (seeded 2)
    part at the second sample. *)
Example multi_time_scale_run :
  match @MS_HMM_MVN_init LCG_generator 8 (ArgStr "uniform") 3%Z (Some (1 # 2)) (Some 0%Z)
                         0%Z 0%Z with
  | Ok ms => rows <$> state_time_course ms
  | Raise _ => []
  end
  = [[[1; 0; 0]; [0; 1; 0]; [0; 1; 0]; [1; 0; 0]; [1; 0; 0]; [1; 0; 0]; [0; 1; 0]; [1; 0; 0]];
     [[1; 0; 0]; [1; 0; 0]; [0; 1; 0]; [0; 1; 0]; [0; 0; 1]; [0; 0; 1]; [0; 1; 0]; [0; 0; 1]]]%Z.
Proof. vm_compute. reflexivity. Qed.

(** A hierarchy of two bottom-level chains under a Markov top level. *)
Definition no_hsmm (_ : unit) (_ : nat) : result (array2 Z * unit) := Raise AttributeError.

Definition hierarchy2 : @HierarchicalHMM_MVN LCG_generator unit :=
  MkHier 3 (TopHMM (chain2 1)) 2 [chain3 1; chain3 2] None.

(** Eight samples: the top level visits labels 0 1 0 0 0 1 0 1, and the
    composite rows are rows 0 0 1 2 3 1 4 2 of the matching chain's own
    sample. *)
Example hierarchy2_run :
  match hier_generate_states no_hsmm hierarchy2 8 (fun _ _ => 0%Q) with
  | Ok (stc, self') => (map (map Qred) (rows stc), rows <$> top_level_stc self')
  | Raise _ => ([], None)
  end
  = ([[1; 0; 0]; [1; 0; 0]; [0; 1; 0]; [0; 1; 0]; [1; 0; 0]; [1; 0; 0]; [1; 0; 0]; [0; 0; 1]]%Q,
     Some [[1; 0]; [0; 1]; [1; 0]; [1; 0]; [1; 0]; [0; 1]; [1; 0]; [0; 1]]%Z)
  /\ match generate_states (chain3 1) 8 with Ok (x, _) => rows x | Raise _ => [] end
     = [[1; 0; 0]; [0; 1; 0]; [0; 1; 0]; [1; 0; 0]; [1; 0; 0]; [1; 0; 0]; [0; 1; 0]; [1; 0; 0]]%Z
  /\ match generate_states (chain3 2) 8 with Ok (x, _) => rows x | Raise _ => [] end
     = [[1; 0; 0]; [1; 0; 0]; [0; 0; 1]; [0; 1; 0]; [0; 1; 0]; [0; 0; 1]; [0; 1; 0]; [0; 0; 1]]%Z.
Proof. repeat split; vm_compute; reflexivity. Qed.

Lemma hierarchical_generate_states_witness :
  1 <= 8 /\
  length (bottom_level_hmms hierarchy2) = n_bottom_level_hmms hierarchy2 /\
  Forall (fun h => valid_hmm h /\ n_states h = hier_n_states hierarchy2)
         (bottom_level_hmms hierarchy2) /\
  exists stc self',
    hier_generate_states no_hsmm hierarchy2 8 (fun _ _ => 0%Q) = Ok (stc, self') /\
    length (rows stc) = 8.
Proof.
  assert (Hn : 1 <= 8) by lia.
  assert (HK : length (bottom_level_hmms hierarchy2) = n_bottom_level_hmms hierarchy2)
    by reflexivity.
  assert (Hbot : Forall (fun h => valid_hmm h /\ n_states h = hier_n_states hierarchy2)
                        (bottom_level_hmms hierarchy2)).
  { repeat (constructor; [split; [apply valid_chain3 | reflexivity]|]). constructor. }
  split; [exact Hn|]. split; [exact HK|]. split; [exact Hbot|].
  destruct (generate_states_valid (chain2 1) 8 (valid_chain2 1) Hn) as (top_stc & h' & Hgen).
  destruct (generate_states_shape _ _ _ _ Hgen) as (T0 & T1 & Twf & Thot & _).
  assert (Htop : top_generate_states no_hsmm (top_level_hmm hierarchy2) 8
                 = Ok (top_stc, TopHMM h')).
  { cbn [top_level_hmm hierarchy2 top_generate_states]. rewrite Hgen. reflexivity. }
  destruct (hierarchical_generate_states unit no_hsmm hierarchy2 8 (fun _ _ => 0%Q)
              top_stc (TopHMM h') Hn HK Hbot Htop T0 T1 Twf
              (Thot ltac:(cbn; lia)))
    as (stc & self' & Hrun & _ & _ & Hlen & _).
  exists stc, self'. split; [exact Hrun | exact Hlen].
Defined.

Lemma list_spec_never_builds_witness :
  [[9 # 10; 1 # 10]; [1 # 10; 9 # 10]]%Q <> [] /\
  length [[9 # 10; 1 # 10]; [1 # 10; 9 # 10]]%Q <= NPY_MAXDIMS /\
  @HMM_init LCG_generator (ArgList [[9 # 10; 1 # 10]; [1 # 10; 9 # 10]]%Q) None None
            (Some 0%Z) 0%Z = Raise TypeError.
Proof.
  assert (Hne : [[9 # 10; 1 # 10]; [1 # 10; 9 # 10]]%Q <> []) by discriminate.
  assert (Hle : length [[9 # 10; 1 # 10]; [1 # 10; 9 # 10]]%Q <= NPY_MAXDIMS)
    by (unfold NPY_MAXDIMS; simpl; lia).
  split; [exact Hne|]. split; [exact Hle|].
  destruct (@list_spec_never_builds LCG_generator [[9 # 10; 1 # 10]; [1 # 10; 9 # 10]]%Q
              None None (Some 0%Z) 0%Z) as (err & Herr & Htype).
  rewrite Herr. f_equal. exact (Htype Hne Hle).
Defined.

(** * Further properties of the code *)

(** ** Trimming sequences ([align_arrays]) *)

Lemma take_min_length {A} (l : list A) (m : nat) : take (Nat.min (length l) m) l = take m l.
Proof.
  destruct (Nat.le_ge_cases m (length l)).
  - rewrite Nat.min_r by lia. reflexivity.
  - rewrite Nat.min_l by lia. rewrite !take_ge by lia. reflexivity.
Qed.

(** [l[:m]] is the prefix of [m] items. *)
Lemma py_slice_prefix {A} (l : list A) (m : nat) :
  py_slice l None (Some (Z.of_nat m)) = take m l.
Proof.
  unfold py_slice, slice_bound. cbn [from_option].
  destruct (Z.ltb_spec (Z.of_nat m) 0) as [?|_]; [lia|].
  rewrite Nat2Z.id, Nat.sub_0_r. cbn [drop]. apply take_min_length.
Qed.

(** [l[-m:]] is the suffix of [m] items, except that [l[-0:]] is [l[0:]]. *)
Lemma py_slice_suffix {A} (l : list A) (m : nat) :
  py_slice l (Some (- Z.of_nat m)%Z) None = if m =? 0 then l else drop (length l - m) l.
Proof.
  unfold py_slice, slice_bound. cbn [from_option].
  destruct (Nat.eqb_spec m 0) as [->|Hm].
  - cbn [Z.of_nat Z.opp Z.ltb Z.compare Z.to_nat]. rewrite Nat.min_0_r, Nat.sub_0_r.
    cbn [drop]. apply take_ge. lia.
  - destruct (Z.ltb_spec (- Z.of_nat m) 0) as [_|?]; [|lia].
    replace (Z.to_nat (Z.of_nat (length l) + - Z.of_nat m)) with (length l - m) by lia.
    apply take_ge. rewrite length_drop. lia.
Qed.

(** [l[a - b : a + b]] when the window lies inside the sequence. *)
Lemma py_slice_window {A} (l : list A) (a b : nat) :
  b <= a -> a + b <= length l ->
  py_slice l (Some (Z.of_nat a - Z.of_nat b)%Z) (Some (Z.of_nat a + Z.of_nat b)%Z)
  = take (2 * b) (drop (a - b) l).
Proof.
  intros Hba Hab. unfold py_slice, slice_bound. cbn [from_option].
  destruct (Z.ltb_spec (Z.of_nat a - Z.of_nat b) 0) as [?|_]; [lia|].
  destruct (Z.ltb_spec (Z.of_nat a + Z.of_nat b) 0) as [?|_]; [lia|].
  f_equal; [|f_equal]; lia.
Qed.

Lemma foldr_min_spec (x : nat) (l : list nat) :
  Forall (fun y => foldr Nat.min x l <= y) (x :: l) /\ foldr Nat.min x l ∈ x :: l.
Proof.
  induction l as [|y l [IH1 IH2]]; cbn [foldr].
  - split; [constructor; [cbn beta; lia | constructor] | apply list_elem_of_here].
  - split.
    + apply Forall_cons_1 in IH1 as [Hx Hl].
      cbn beta in Hx. constructor; [cbn beta; lia|]. constructor; [cbn beta; lia|].
      eapply Forall_impl; [exact Hl|]. cbn beta. intros; lia.
    + destruct (Nat.min_spec y (foldr Nat.min x l)) as [[_ ->]|[_ ->]].
      * apply list_elem_of_further, list_elem_of_here.
      * apply elem_of_cons in IH2 as [->|IH2]; [apply list_elem_of_here|].
        apply list_elem_of_further, list_elem_of_further, IH2.
Qed.

(** The minimum is a lower bound, and it is attained. *)
Lemma py_min_spec (l : list nat) (m : nat) :
  py_min l = Ok m -> Forall (fun y => m <= y) l /\ m ∈ l.
Proof.
  destruct l as [|x l]; [discriminate|]. intros H. injection H as <-.
  apply foldr_min_spec.
Qed.

Lemma py_min_const (l : list nat) (m : nat) :
  l <> [] -> Forall (fun y => y = m) l -> py_min l = Ok m.
Proof.
  destruct l as [|x l]; [contradiction|]. intros _ H.
  apply Forall_cons_1 in H as [-> H]. cbn [py_min]. f_equal.
  induction H as [|y l -> _ IH]; cbn [foldr]; [reflexivity|]. rewrite IH. lia.
Qed.

Lemma align_arrays_left {A} (sequences : list (list A)) (m : nat) :
  py_min (length <$> sequences) = Ok m ->
  align_arrays sequences "left" = Ok (take m <$> sequences).
Proof.
  intros Hm. unfold align_arrays. rewrite Hm, bind_Ok. cbn [String.eqb Ascii.eqb Bool.eqb].
  f_equal. apply map_ext. intros s. apply py_slice_prefix.
Qed.

Lemma align_arrays_right {A} (sequences : list (list A)) (m : nat) :
  py_min (length <$> sequences) = Ok m ->
  align_arrays sequences "right"
  = Ok ((fun s => if m =? 0 then s else drop (length s - m) s) <$> sequences).
Proof.
  intros Hm. unfold align_arrays. rewrite Hm, bind_Ok. cbn [String.eqb Ascii.eqb Bool.eqb].
  f_equal. apply map_ext. intros s. apply py_slice_suffix.
Qed.

Lemma align_arrays_center {A} (sequences : list (list A)) (m : nat) :
  py_min (length <$> sequences) = Ok m ->
  align_arrays sequences "center"
  = Ok ((fun s => take (2 * (m / 2)) (drop (length s / 2 - m / 2) s)) <$> sequences).
Proof.
  intros Hm. unfold align_arrays. rewrite Hm, bind_Ok. cbn [String.eqb Ascii.eqb Bool.eqb].
  f_equal. apply py_min_spec in Hm as [Hle _]. rewrite Forall_fmap in Hle.
  induction Hle as [|s ss Hs _ IH]; [reflexivity|].
  cbn [map zip_with fmap list_fmap]. cbn [compose] in Hs. f_equal; [|exact IH].
  assert (m / 2 <= length s / 2) by (apply Nat.Div0.div_le_mono; exact Hs).
  pose proof (Nat.Div0.mul_div_le (length s) 2).
  apply py_slice_window; lia.
Qed.

Lemma fmap_fixed {A} (f : A -> A) (l : list A) :
  Forall (fun x => f x = x) l -> f <$> l = l.
Proof.
  induction 1 as [|x l Hx _ IH]; [reflexivity|].
  cbn [fmap list_fmap]. fold (f <$> l). rewrite Hx, IH. reflexivity.
Qed.

Lemma py_min_lengths {A} (sequences : list (list A)) (m : nat) :
  py_min (length <$> sequences) = Ok m ->
  sequences <> [] /\ Forall (fun s => m <= length s) sequences /\
  Exists (fun s => length s = m) sequences.
Proof.
  intros Hm. split; [intros ->; discriminate Hm|].
  apply py_min_spec in Hm as [Hle Hin]. rewrite Forall_fmap in Hle.
  split; [exact Hle|]. apply list_elem_of_fmap in Hin as (s & -> & Hs).
  apply Exists_exists. exists s. split; [exact Hs | reflexivity].
Qed.

(** The lengths of the trimmed sequences have the minimum [m'] when every
    one of them has length [m']. *)
Lemma py_min_trimmed {A} (f : list A -> list A) (sequences : list (list A)) (m' : nat) :
  sequences <> [] -> Forall (fun s => length (f s) = m') sequences ->
  py_min (length <$> (f <$> sequences)) = Ok m'.
Proof.
  intros Hne Hlen. apply py_min_const.
  - destruct sequences; [contradiction | discriminate].
  - rewrite !Forall_fmap. exact Hlen.
Qed.

(** X1: with [alignment="left"] and at least one sequence, [align_arrays]
    returns one sequence per input, each the prefix of its input of length
    [m], the length of a shortest input. *)
Theorem align_left_common_prefix {A} (s : list A) (rest : list (list A)) :
  exists m out, align_arrays (s :: rest) "left" = Ok out /\
    Forall (fun s' => m <= length s') (s :: rest) /\
    Exists (fun s' => length s' = m) (s :: rest) /\
    Forall2 (fun s' o => o = take m s' /\ length o = m) (s :: rest) out.
Proof.
  destruct (py_min (length <$> s :: rest)) as [m|] eqn:Hm; [|discriminate Hm].
  exists m, (take m <$> s :: rest).
  split; [apply align_arrays_left, Hm|].
  destruct (py_min_lengths _ _ Hm) as (_ & Hle & Hex).
  split; [exact Hle|]. split; [exact Hex|].
  apply Forall2_fmap_r, Forall_Forall2_diag.
  eapply Forall_impl; [exact Hle|]. intros s' Hs'. cbn [compose]. cbn beta in Hs'.
  split; [reflexivity|]. rewrite length_take. lia.
Qed.

(** X2: with [alignment="right"], at least one sequence and no empty
    one, every returned sequence is the suffix of its input of length [m],
    the length of a shortest input: the ends are aligned. *)
Theorem align_right_common_suffix {A} (sequences : list (list A)) :
  sequences <> [] -> Forall (fun s => s <> []) sequences ->
  exists m out, align_arrays sequences "right" = Ok out /\
    0 < m /\
    Forall (fun s => m <= length s) sequences /\
    Exists (fun s => length s = m) sequences /\
    Forall2 (fun s o => o = drop (length s - m) s /\ length o = m) sequences out.
Proof.
  intros Hne Hfull.
  destruct (py_min (length <$> sequences)) as [m|] eqn:Hm;
    [|destruct sequences; [contradiction | discriminate Hm]].
  destruct (py_min_lengths _ _ Hm) as (_ & Hle & Hex).
  assert (Hpos : 0 < m).
  { apply Exists_exists in Hex as (s & Hs & <-).
    pose proof (proj1 (Forall_forall _ _) Hfull s Hs) as Hs'. cbn beta in Hs'.
    destruct s; [contradiction | cbn; lia]. }
  eexists m, _. split; [apply align_arrays_right, Hm|].
  split; [exact Hpos|]. split; [exact Hle|]. split; [exact Hex|].
  apply Forall2_fmap_r, Forall_Forall2_diag.
  eapply Forall_impl; [exact Hle|]. intros s Hs. cbn [compose]. cbn beta in Hs.
  destruct (Nat.eqb_spec m 0); [lia|].
  split; [reflexivity|]. rewrite length_drop. lia.
Qed.

(** X3: with [alignment="right"], as soon as one of the sequences is
    empty nothing is trimmed: [sequence[-0:]] is the whole sequence, so the
    inputs are returned as they are, whatever their lengths. *)
Theorem align_right_empty_unchanged {A} (sequences : list (list A)) :
  [] ∈ sequences -> align_arrays sequences "right" = Ok sequences.
Proof.
  intros Hin.
  destruct (py_min (length <$> sequences)) as [m|] eqn:Hm;
    [|destruct sequences; [inversion Hin | discriminate Hm]].
  destruct (py_min_lengths _ _ Hm) as (_ & Hle & _).
  pose proof (proj1 (Forall_forall _ _) Hle [] Hin) as H0. cbn in H0.
  assert (m = 0) as -> by lia.
  rewrite (align_arrays_right _ _ Hm). f_equal. apply fmap_fixed.
  apply Forall_true. intros s. reflexivity.
Qed.

(** X4: with [alignment="center"] and at least one sequence, every returned
    sequence is the window of [2 * (m / 2)] items around the middle item
    (position [len / 2]) of its input, [m] the length of a shortest input;
    so the common length is [m] for an even [m], and one less for an odd
    one. *)
Theorem align_center_window {A} (s : list A) (rest : list (list A)) :
  exists m out, align_arrays (s :: rest) "center" = Ok out /\
    Forall (fun s' => m <= length s') (s :: rest) /\
    Exists (fun s' => length s' = m) (s :: rest) /\
    Forall2 (fun s' o => o = take (2 * (m / 2)) (drop (length s' / 2 - m / 2) s') /\
                         length o = m - m mod 2) (s :: rest) out.
Proof.
  destruct (py_min (length <$> s :: rest)) as [m|] eqn:Hm; [|discriminate Hm].
  eexists m, _. split; [apply align_arrays_center, Hm|].
  destruct (py_min_lengths _ _ Hm) as (_ & Hle & Hex).
  split; [exact Hle|]. split; [exact Hex|].
  apply Forall2_fmap_r, Forall_Forall2_diag.
  eapply Forall_impl; [exact Hle|]. intros s' Hs'. cbn [compose]. cbn beta in Hs'.
  split; [reflexivity|]. rewrite length_take, length_drop.
  assert (m / 2 <= length s' / 2) by (apply Nat.Div0.div_le_mono; exact Hs').
  pose proof (Nat.Div0.mul_div_le (length s') 2).
  pose proof (Nat.div_mod_eq m 2). lia.
Qed.

(** X5: without any sequence [align_arrays] raises the [ValueError] of
    [min], whatever the alignment (a wrong alignment is not noticed); with
    one sequence or more it returns exactly for the alignments ["left"],
    ["right"] and ["center"], and raises its own [ValueError] for any
    other string. *)
Theorem align_arrays_errors {A} (s : list A) (rest : list (list A)) (alignment : string) :
  align_arrays (@nil (list A)) alignment
    = Raise (ValueError "min() arg is an empty sequence") /\
  (is_ok (align_arrays (s :: rest) alignment) = true <->
     alignment = "left" \/ alignment = "right" \/ alignment = "center") /\
  (is_ok (align_arrays (s :: rest) alignment) = false ->
     align_arrays (s :: rest) alignment
     = Raise (ValueError "Alignment must be left, right or center.")).
Proof.
  split; [reflexivity|].
  unfold align_arrays. cbn [fmap list_fmap py_min]. rewrite bind_Ok.
  destruct (String.eqb_spec alignment "left") as [->|Hl].
  { split; [split; [auto | reflexivity] | discriminate]. }
  destruct (String.eqb_spec alignment "right") as [->|Hr].
  { split; [split; [auto | reflexivity] | discriminate]. }
  destruct (String.eqb_spec alignment "center") as [->|Hc].
  { split; [split; [auto | reflexivity] | discriminate]. }
  split; [|reflexivity].
  split; [discriminate|]. intros [?|[?|?]]; contradiction.
Qed.

(** X6: aligning is idempotent: what [align_arrays] returns is returned
    unchanged when it is aligned again with the same alignment. *)
Theorem align_arrays_idempotent {A} (sequences out : list (list A)) (alignment : string) :
  align_arrays sequences alignment = Ok out -> align_arrays out alignment = Ok out.
Proof.
  intros H.
  destruct (py_min (length <$> sequences)) as [m|] eqn:Hm;
    [|unfold align_arrays in H; rewrite Hm in H; discriminate H].
  destruct (py_min_lengths _ _ Hm) as (Hne & Hle & _).
  destruct (String.eqb_spec alignment "left") as [->|Hl];
    [|destruct (String.eqb_spec alignment "right") as [->|Hr];
      [|destruct (String.eqb_spec alignment "center") as [->|Hc]]].
  - rewrite (align_arrays_left _ _ Hm) in H. injection H as <-.
    assert (Hlen : Forall (fun s => length (take m s) = m) sequences).
    { eapply Forall_impl; [exact Hle|]. intros s Hs. cbn beta in Hs.
      rewrite length_take. lia. }
    rewrite (align_arrays_left _ m) by (apply py_min_trimmed; assumption).
    f_equal. apply fmap_fixed. rewrite Forall_fmap.
    apply Forall_true. intros s. cbn [compose]. apply take_idemp.
  - rewrite (align_arrays_right _ _ Hm) in H. injection H as <-.
    destruct (Nat.eqb_spec m 0) as [->|Hm0].
    + assert (E : (fun s : list A => s) <$> sequences = sequences)
        by (apply fmap_fixed, Forall_true; reflexivity).
      rewrite E, (align_arrays_right _ _ Hm). cbn [Nat.eqb]. rewrite E. reflexivity.
    + assert (Hlen : Forall (fun s => length (drop (length s - m) s) = m) sequences).
      { eapply Forall_impl; [exact Hle|]. intros s Hs. cbn beta in Hs.
        rewrite length_drop. lia. }
      rewrite (align_arrays_right _ m) by (apply py_min_trimmed; assumption).
      destruct (Nat.eqb_spec m 0) as [?|_]; [contradiction|].
      f_equal. apply fmap_fixed. rewrite Forall_fmap.
      eapply Forall_impl; [exact Hlen|]. intros s Hs. cbn beta in Hs. cbn [compose].
      rewrite Hs, Nat.sub_diag. reflexivity.
  - rewrite (align_arrays_center _ _ Hm) in H.
    assert (Hout : out = (fun s => take (2 * (m / 2)) (drop (length s / 2 - m / 2) s))
                         <$> sequences) by congruence.
    subst out. clear H.
    assert (E2 : (2 * (m / 2)) / 2 = m / 2)
      by (rewrite Nat.mul_comm; apply Nat.div_mul; lia).
    assert (Hlen : Forall (fun s => length (take (2 * (m / 2))
                                            (drop (length s / 2 - m / 2) s))
                                    = 2 * (m / 2)) sequences).
    { eapply Forall_impl; [exact Hle|]. intros s Hs. cbn beta in Hs.
      rewrite length_take, length_drop.
      assert (m / 2 <= length s / 2) by (apply Nat.Div0.div_le_mono; exact Hs).
      pose proof (Nat.Div0.mul_div_le (length s) 2). lia. }
    rewrite (align_arrays_center _ (2 * (m / 2))) by (apply py_min_trimmed; assumption).
    f_equal. apply fmap_fixed. rewrite Forall_fmap.
    eapply Forall_impl; [exact Hlen|]. intros s Hs. cbn beta in Hs. unfold compose.
    rewrite Hs, E2, Nat.sub_diag. cbn [drop]. apply take_ge. lia.
  - unfold align_arrays in H. rewrite Hm, bind_Ok in H.
    rewrite (proj2 (String.eqb_neq _ _) Hl), (proj2 (String.eqb_neq _ _) Hr),
      (proj2 (String.eqb_neq _ _) Hc) in H. discriminate H.
Qed.

Lemma align_right_common_suffix_witness :
  [[1; 2; 3]; [4; 5]] <> [] /\
  Forall (fun s : list nat => s <> []) [[1; 2; 3]; [4; 5]] /\
  exists m out, align_arrays [[1; 2; 3]; [4; 5]] "right" = Ok out /\
    0 < m /\
    Forall (fun s => m <= length s) [[1; 2; 3]; [4; 5]] /\
    Exists (fun s => length s = m) [[1; 2; 3]; [4; 5]] /\
    Forall2 (fun s o => o = drop (length s - m) s /\ length o = m) [[1; 2; 3]; [4; 5]] out.
Proof.
  assert (Hne : [[1; 2; 3]; [4; 5]] <> []) by discriminate.
  assert (Hfull : Forall (fun s : list nat => s <> []) [[1; 2; 3]; [4; 5]])
    by (constructor; [discriminate|]; constructor; [discriminate|]; constructor).
  split; [exact Hne|]. split; [exact Hfull|].
  exact (align_right_common_suffix [[1; 2; 3]; [4; 5]] Hne Hfull).
Defined.

Lemma align_right_empty_unchanged_witness :
  [] ∈ [[1; 2]; []] /\ align_arrays [[1; 2]; []] "right" = Ok [[1; 2]; []].
Proof.
  assert (Hin : [] ∈ [[1; 2]; []]) by (apply list_elem_of_further, list_elem_of_here).
  split; [exact Hin|]. exact (align_right_empty_unchanged [[1; 2]; []] Hin).
Defined.

Lemma align_arrays_idempotent_witness :
  align_arrays [[1; 2; 3]; [4; 5; 6; 7]] "center" = Ok [[1; 2]; [5; 6]] /\
  align_arrays [[1; 2]; [5; 6]] "center" = Ok [[1; 2]; [5; 6]].
Proof.
  assert (H : align_arrays [[1; 2; 3]; [4; 5; 6; 7]] "center" = Ok [[1; 2]; [5; 6]])
    by reflexivity.
  split; [exact H|]. exact (align_arrays_idempotent _ _ _ H).
Defined.

(** ** One-hot encoding ([get_one_hot]) *)

(** X7: without [n_states] the encoding of a non-empty label array has one
    column per label up to the largest one present, that is
    [max(values) + 1] columns also when smaller labels are absent, and it
    never fails; an empty label array raises, since it has no maximum. *)
Theorem get_one_hot_default_width (v : nat) (values : list nat) :
  get_one_hot (v :: values) None
    = Ok (Array2 (length (v :: values)) (max_list (v :: values) + 1)
                 (basis (max_list (v :: values) + 1) <$> v :: values)) /\
  get_one_hot [] None = Raise (ValueError "zero-size array to reduction operation maximum").
Proof.
  split; [|reflexivity].
  change (get_one_hot (v :: values) None)
    with (get_one_hot (v :: values) (Some (max_list (v :: values) + 1))).
  apply get_one_hot_ok. apply Forall_forall. intros x Hx.
  apply max_list_elem_of_le in Hx. lia.
Qed.

Lemma mapM_eye_cases (n : nat) (values : list nat) :
  (Forall (fun v => v < n) values /\
   mapM (fun v => from_option Ok (Raise IndexError) (np_eye n !! v)) values
   = Ok (basis n <$> values)) \/
  (Exists (fun v => n <= v) values /\
   mapM (fun v => from_option Ok (Raise IndexError) (np_eye n !! v)) values
   = Raise IndexError).
Proof.
  induction values as [|v values IH]; [left; split; [constructor | reflexivity]|].
  rewrite mapM_result_cons. destruct (Nat.lt_ge_cases v n) as [Hv|Hv].
  - rewrite (np_eye_lookup n v Hv). cbn [from_option]. rewrite bind_Ok.
    destruct IH as [[Hall ->]|[Hex ->]].
    + left. split; [constructor; assumption | reflexivity].
    + right. split; [apply Exists_cons_tl, Hex | reflexivity].
  - right. split; [apply Exists_cons_hd, Hv|].
    destruct (np_eye n !! v) as [row|] eqn:E; [|reflexivity].
    apply np_eye_lookup_inv in E as [Hlt _]. lia.
Qed.

(** X8: with [n_states >= 1] given, the encoding succeeds exactly when
    every label is below [n_states]; a label at or above it makes the row
    lookup in the identity matrix raise an [IndexError].  With
    [n_states = 0] the identity matrix has no column, the lookup does not
    look at the labels, and the encoding is one empty row per label,
    whatever the labels. *)
Theorem get_one_hot_out_of_range (values : list nat) (n : nat) :
  (is_ok (get_one_hot values (Some n)) = true
   <-> n = 0 \/ Forall (fun v => v < n) values) /\
  (get_one_hot values (Some n) = Raise IndexError
   <-> 0 < n /\ Exists (fun v => n <= v) values) /\
  get_one_hot values (Some 0) = Ok (Array2 (length values) 0 (replicate (length values) [])).
Proof.
  split; [|split; [|reflexivity]]; unfold get_one_hot, take_rows; rewrite bind_Ok;
    destruct (Nat.eqb_spec n 0) as [->|Hn].
  - rewrite bind_Ok. cbn. split; [intros _; left; reflexivity | reflexivity].
  - destruct (mapM_eye_cases n values) as [[Hall ->]|[Hex ->]]; rewrite ?bind_Ok; cbn.
    + split; [intros _; right; exact Hall | reflexivity].
    + split; [discriminate|]. intros [->|Hall]; [lia|]. exfalso.
      apply Exists_exists in Hex as (v & Hv & Hge).
      pose proof (proj1 (Forall_forall _ _) Hall v Hv) as Hlt. cbn beta in Hlt. lia.
  - rewrite bind_Ok. split; [discriminate | intros [Hpos _]; lia].
  - destruct (mapM_eye_cases n values) as [[Hall ->]|[Hex ->]]; rewrite ?bind_Ok; cbn.
    + split; [discriminate|]. intros [_ Hex]. exfalso.
      apply Exists_exists in Hex as (v & Hv & Hge).
      pose proof (proj1 (Forall_forall _ _) Hall v Hv) as Hlt. cbn beta in Hlt. lia.
    + split; [intros _; split; [lia | exact Hex] | reflexivity].
Qed.

Lemma argmax_from_one (v bp pos k : nat) :
  argmax_from 1 bp pos (map (fun j => if v =? j then 1%Z else 0%Z) (seq pos k)) = bp.
Proof.
  revert pos; induction k as [|k IH]; intros pos; [reflexivity|].
  cbn [seq map argmax_from]. destruct (v =? pos); cbn [Z.ltb Z.compare Pos.compare]; apply IH.
Qed.

Lemma argmax_from_zero (v bp pos k : nat) :
  pos <= v < pos + k ->
  argmax_from 0 bp pos (map (fun j => if v =? j then 1%Z else 0%Z) (seq pos k)) = v.
Proof.
  revert pos bp; induction k as [|k IH]; intros pos bp Hv; [lia|].
  cbn [seq map argmax_from]. destruct (Nat.eqb_spec v pos) as [->|Hne].
  - cbn [Z.ltb Z.compare]. apply argmax_from_one.
  - cbn [Z.ltb Z.compare]. apply IH. lia.
Qed.

Lemma argmax_basis (n v : nat) :
  v < n ->
  match basis n v with
  | [] => 0
  | x :: row => argmax_from x 0 1 row
  end = v.
Proof.
  intros Hv. unfold basis. destruct n as [|n]; [lia|]. cbn [seq map].
  destruct (Nat.eqb_spec v 0) as [->|Hne].
  - apply argmax_from_one.
  - apply argmax_from_zero. lia.
Qed.

(** X9: decoding undoes encoding.  For a one-hot array [a] returned by
    [get_one_hot(values, n_states)] with [n_states >= 1], the row-wise
    [argmax] gives back [values], so passing [a] itself to [get_one_hot]
    with the same [n_states] returns [a] again; without [n_states] the
    result is the encoding of [values] with its default width. *)
Theorem one_hot_argmax_round_trip (values : list nat) (n : nat) (a : array2 Z) :
  get_one_hot values (Some n) = Ok a -> 1 <= n ->
  argmax_axis1 a = Ok values /\
  get_one_hot_2d a (Some n) = Ok a /\
  get_one_hot_2d a None = get_one_hot values None.
Proof.
  intros Ha Hn.
  assert (Hdec : argmax_axis1 a = Ok values).
  { destruct (get_one_hot_inv _ _ _ Ha) as [Hlt ->]. clear Ha.
    specialize (Hlt ltac:(lia)). unfold argmax_axis1. cbn [shape1 rows].
    destruct (Nat.eqb_spec n 0) as [?|_]; [lia|]. f_equal.
    induction Hlt as [|v values Hv _ IH]; [reflexivity|].
    cbn [fmap list_fmap map]. f_equal; [apply argmax_basis, Hv | apply IH]. }
  split; [exact Hdec|]. unfold get_one_hot_2d. rewrite Hdec, !bind_Ok.
  split; [exact Ha | reflexivity].
Qed.

Lemma one_hot_argmax_round_trip_witness :
  get_one_hot [2; 0; 1] (Some 3) = Ok (Array2 3 3 [[0; 0; 1]; [1; 0; 0]; [0; 1; 0]]%Z) /\
  1 <= 3 /\
  argmax_axis1 (Array2 3 3 [[0; 0; 1]; [1; 0; 0]; [0; 1; 0]]%Z) = Ok [2; 0; 1] /\
  get_one_hot_2d (Array2 3 3 [[0; 0; 1]; [1; 0; 0]; [0; 1; 0]]%Z) (Some 3)
    = Ok (Array2 3 3 [[0; 0; 1]; [1; 0; 0]; [0; 1; 0]]%Z) /\
  get_one_hot_2d (Array2 3 3 [[0; 0; 1]; [1; 0; 0]; [0; 1; 0]]%Z) None
    = get_one_hot [2; 0; 1] None.
Proof.
  assert (Ha : get_one_hot [2; 0; 1] (Some 3)
               = Ok (Array2 3 3 [[0; 0; 1]; [1; 0; 0]; [0; 1; 0]]%Z)) by reflexivity.
  assert (Hn : 1 <= 3) by lia.
  split; [exact Ha|]. split; [exact Hn|].
  exact (one_hot_argmax_round_trip [2; 0; 1] 3 _ Ha Hn).
Defined.

(** ** The transition-matrix builders on degenerate sizes *)

Lemma builders_negative (p : Q) (n : Z) :
  (n < 0)%Z ->
  construct_sequence_trans_prob p n
    = Raise (ValueError "negative dimensions are not allowed") /\
  construct_uniform_trans_prob p n
    = Raise (ValueError "negative dimensions are not allowed").
Proof.
  intros Hn. unfold construct_sequence_trans_prob, construct_uniform_trans_prob, square_of.
  destruct (Z.ltb_spec n 0) as [_|?]; [|lia].
  destruct (Z.eqb_spec (n - 1) 0) as [?|_]; [lia|]. split; reflexivity.
Qed.

(** X10: the two static builders called on their own.  A negative size is
    refused by NumPy.  For no state the cyclic builder fails on its
    wrap-around entry while the uniform one returns the empty matrix.  For
    one state the cyclic builder's wrap-around entry overwrites the
    diagonal, so the only entry is [1 - p] and not [p], and the uniform
    builder divides by zero. *)
Theorem builders_degenerate_sizes (p : Q) (n : Z) :
  ((n < 0)%Z ->
     construct_sequence_trans_prob p n
       = Raise (ValueError "negative dimensions are not allowed") /\
     construct_uniform_trans_prob p n
       = Raise (ValueError "negative dimensions are not allowed")) /\
  construct_sequence_trans_prob p 0 = Raise IndexError /\
  construct_uniform_trans_prob p 0 = Ok (Array2 0 0 []) /\
  construct_sequence_trans_prob p 1 = Ok (Array2 1 1 [[(1 - p)%Q]]) /\
  construct_uniform_trans_prob p 1 = Raise ZeroDivisionError.
Proof.
  split; [apply builders_negative|repeat split; reflexivity].
Qed.

Lemma builders_degenerate_sizes_witness :
  (-2 < 0)%Z /\
  construct_sequence_trans_prob (1 # 2) (-2)
    = Raise (ValueError "negative dimensions are not allowed") /\
  construct_uniform_trans_prob (1 # 2) (-2)
    = Raise (ValueError "negative dimensions are not allowed").
Proof.
  assert (Hn : (-2 < 0)%Z) by lia.
  split; [exact Hn|]. exact (proj1 (builders_degenerate_sizes (1 # 2) (-2)) Hn).
Defined.

Section NamedSpecs.
Context `{G : Generator}.





End NamedSpecs.

(** ** What every constructed chain satisfies *)










Section ChainInvariant.
Context `{G : Generator}.



End ChainInvariant.



(** ** Edge cases of the sampler *)

Section SamplerEdges.
Context `{G : Generator}.


(** X15: asking a valid chain for no sample returns the empty array of
    shape [(0, n_states)]; the streams are still drawn (one [choice] call
    of size zero per state), so only the generator of the chain may have
    changed. *)
Theorem zero_samples_empty (h : HMM) :
  valid_hmm h ->
  exists h', generate_states h 0 = Ok (Array2 0 (n_states h) [], h') /\
             trans_prob h' = trans_prob h /\ n_states h' = n_states h.
Proof.
  intros (HK & _ & _ & Hrows & Hvalid).
  destruct (draw_streams_ok (_rng h) (n_states h) 0 (trans_prob h) (seq 0 (n_states h)))
    as (strs & g' & Hdraw & _); [exact Hvalid| |].
  { apply Forall_forall. intros i Hi. apply elem_of_seq in Hi. lia. }
  eexists. unfold generate_states, generate_states_locals. rewrite Hdraw, bind_Ok.
  cbn [seq Nat.sub for_each replicate]. rewrite !bind_Ok. cbn [states rng_after].
  rewrite (get_one_hot_ok [] (n_states h)) by constructor. rewrite bind_Ok.
  split; [reflexivity|]. split; reflexivity.
Qed.

(** X16: a chain with one state never leaves it: whenever sampling
    succeeds, the time course is [n_samples] rows [[1]]. *)
Theorem one_state_chain_constant (h h' : HMM) (n_samples : nat) (x : array2 Z) :
  n_states h = 1 -> generate_states h n_samples = Ok (x, h') ->
  x = Array2 n_samples 1 (replicate n_samples [1%Z]).
Proof.
  intros HK Hgen.
  destruct (generate_states_shape _ _ _ _ Hgen) as (X0 & X1 & [Hlen _] & Xhot & _).
  rewrite HK in X1, Xhot. destruct x as [r c rs]. cbn [shape0 shape1 rows] in *.
  subst r c. f_equal. symmetry. apply replicate_as_Forall_2; [exact Hlen|].
  eapply Forall_impl; [exact (Xhot ltac:(lia))|]. intros row (k & Hl & Hk & Hrow).
  specialize (Hrow 0 ltac:(lia)). assert (k = 0) as -> by lia. cbn in Hrow.
  destruct row as [|v [|v' row]]; cbn in Hl; try lia. cbn in Hrow. congruence.
Qed.

End SamplerEdges.

(** ** The single-chain simulations *)

Section SingleChainProps.
Context `{G : Generator}.

(** X17: a seeded single-chain simulation ([HMM_MVN], and likewise
    [HMM_MAR] and [HMM_Sine]) and a multi-time-scale simulation built from
    the same arguments and the same seed share a chain: both seed it with
    [random_seed + 1], so whenever the multi-time-scale constructor gets
    through, so does the single-chain one, and its state time course is the
    first of the two stacked time courses. *)
Theorem single_chain_is_alpha (n_samples : nat) (tp : trans_prob_arg) (k : Z)
    (sp : option Q) (seed : Z) (e_alpha e_gamma e : Z) (ms : MS_HMM_MVN) :
  MS_HMM_MVN_init n_samples tp k sp (Some seed) e_alpha e_gamma = Ok ms ->
  exists sim, HMM_MVN_init n_samples tp k sp (Some seed) e = Ok sim /\
    state_time_course ms !! 0 = Some (mvn_state_time_course sim) /\
    mvn_hmm sim = alpha_hmm ms /\ mvn_n_states sim = ms_n_states ms.
Proof.
  intros H. unfold MS_HMM_MVN_init in H.
  apply bind_Ok_inv in H as ([ha wa] & Ha & H).
  apply bind_Ok_inv in H as ([hg wg] & Hg & H).
  apply bind_Ok_inv in H as ([alpha ha'] & Hsa & H).
  apply bind_Ok_inv in H as ([gamma hg'] & Hsg & H).
  injection H as <-. cbn [state_time_course alpha_hmm ms_n_states].
  exists (MkMVN k ha' alpha). split; [|repeat split].
  unfold HMM_MVN_init.
  change (HMM_init tp sp (Some k) (seed_plus (Some seed) 1) e)
    with (HMM_init tp sp (Some k) (seed_plus (Some seed) 1) e_alpha).
  rewrite Ha, bind_Ok. cbn beta iota. rewrite Hsa, bind_Ok. reflexivity.
Qed.

(** X18: for an explicit matrix the single-chain constructor never compares
    the size of the matrix with the number of states of the observation
    model: the simulation records the latter as its [n_states], while the
    chain and the columns of the state time course follow the matrix. *)
Theorem single_chain_matrix_unchecked (n_samples : nat) (m : array2 Q) (k : Z)
    (sp : option Q) (seed : option Z) (e : Z) (sim : HMM_MVN) :
  HMM_MVN_init n_samples (ArgArray (Nd2 m)) k sp seed e = Ok sim ->
  mvn_n_states sim = k /\
  n_states (mvn_hmm sim) = shape0 m /\
  shape0 (mvn_state_time_course sim) = n_samples /\
  shape1 (mvn_state_time_course sim) = shape0 m /\
  forall k', exists sim',
    HMM_MVN_init n_samples (ArgArray (Nd2 m)) k' sp seed e = Ok sim' /\
    mvn_state_time_course sim' = mvn_state_time_course sim.
Proof.
  intros H. unfold HMM_MVN_init in H.
  apply bind_Ok_inv in H as ([h w] & Hh & H).
  apply bind_Ok_inv in H as ([x h'] & Hx & H). injection H as <-.
  cbn [mvn_n_states mvn_hmm mvn_state_time_course].
  destruct (HMM_init_n_states _ _ _ _ _ _ _ Hh) as (_ & _ & Hk).
  destruct (generate_states_shape _ _ _ _ Hx) as (X0 & X1 & _ & _ & _ & Hk').
  split; [reflexivity|]. split; [congruence|]. split; [exact X0|]. split; [congruence|].
  intros k'. eexists. unfold HMM_MVN_init.
  rewrite HMM_init_array in Hh |- *. rewrite Hh, bind_Ok. cbn beta iota.
  rewrite Hx, bind_Ok. split; reflexivity.
Qed.

End SingleChainProps.

(** ** Transposed input *)




Section Transposed.
Context `{G : Generator}.


End Transposed.


(** ** Rows the hierarchical composer never writes *)

Lemma fold_insert_other {A} (idx : list nat) (vals : list A) (l : list A) (t : nat) :
  t ∉ idx ->
  fold_left (fun rs tr => <[tr.1 := tr.2]> rs) (zip idx vals) l !! t = l !! t.
Proof.
  revert vals l. induction idx as [|t0 idx IH]; intros vals l Ht; [reflexivity|].
  destruct vals as [|v0 vals]; [reflexivity|].
  apply not_elem_of_cons in Ht as [Hne Ht].
  cbn [zip zip_with fold_left fst snd]. rewrite (IH vals _ Ht).
  apply list_lookup_insert_ne. congruence.
Qed.

Lemma argwhere_eq_active (top : array2 Z) (i t : nat) :
  t ∈ argwhere_eq 1 (map (fun r => nth i r 0%Z) (rows top)) -> entry top t i = Some 1%Z.
Proof.
  unfold argwhere_eq. intros Ht. apply list_elem_of_filter in Ht as [Ht _].
  change (map ?f ?l) with (f <$> l) in Ht. rewrite list_lookup_fmap in Ht.
  unfold entry. destruct (rows top !! t) as [r|]; [|discriminate Ht].
  cbn [fmap option_fmap option_map] in Ht. cbn [mbind option_bind].
  injection Ht as Ht. rewrite nth_lookup in Ht.
  destruct (r !! i) as [v|]; cbn [default from_option id] in Ht;
    [rewrite Ht; reflexivity | discriminate Ht].
Qed.

Section Unwritten.
Context `{G : Generator}.

Lemma bottom_step_keeps_row (top : array2 Z) (n : nat) (st st' : array2 Q * list HMM)
    (i t : nat) :
  bottom_step top n st i = Ok st' -> entry top t i <> Some 1%Z ->
  rows st'.1 !! t = rows st.1 !! t.
Proof.
  destruct st as [stc hmms]. unfold bottom_step. intros H Hina.
  apply bind_Ok_inv in H as (col & Hcol & H).
  apply bind_Ok_inv in H as (h & _ & H).
  apply bind_Ok_inv in H as ([x h'] & _ & H).
  apply bind_Ok_inv in H as (stc' & Hset & H). injection H as <-. cbn [fst].
  unfold get_column in Hcol. destruct (shape1 top <=? i); [discriminate|].
  injection Hcol as <-.
  unfold setitem_rows in Hset. destruct (negb _); [discriminate|].
  apply bind_Ok_inv in Hset as (new_rows & _ & Hset). injection Hset as <-.
  cbn [rows]. apply fold_insert_other.
  intros Hin. apply Hina, argwhere_eq_active, Hin.
Qed.

Lemma bottom_loop_keeps_row (top : array2 Z) (n : nat) (idx : list nat)
    (st st' : array2 Q * list HMM) (t : nat) :
  for_each (bottom_step top n) st idx = Ok st' ->
  Forall (fun i => entry top t i <> Some 1%Z) idx ->
  rows st'.1 !! t = rows st.1 !! t.
Proof.
  revert st; induction idx as [|i idx IH]; intros st H Hidx.
  - injection H as <-. reflexivity.
  - cbn [for_each] in H. apply bind_Ok_inv in H as (st1 & H1 & H).
    apply Forall_cons_1 in Hidx as [Hi Hidx].
    rewrite (IH _ H Hidx). apply (bottom_step_keeps_row _ _ _ _ _ _ H1 Hi).
Qed.

End Unwritten.

(** X20: whenever the hierarchical [generate_states] returns, a sample at
    which none of the labels that have a bottom-level chain is active (the
    top-level chain has more states than there are bottom-level chains, or
    its row is not one-hot) keeps the row [np.empty] allocated: the
    composite holds uninitialised memory there, and no error is
    raised. *)
Theorem hier_rows_without_chain_unwritten `{G : Generator} (HSMM : Type)
    (HSMM_generate_states : HSMM -> nat -> result (array2 Z * HSMM))
    (self self' : HierarchicalHMM_MVN HSMM) (n_samples : nat) (mem : nat -> nat -> Q)
    (stc : array2 Q) :
  hier_generate_states HSMM_generate_states self n_samples mem = Ok (stc, self') ->
  exists top_stc, top_level_stc self' = Some top_stc /\
    forall t, t < n_samples ->
      (forall i, i < n_bottom_level_hmms self -> entry top_stc t i <> Some 1%Z) ->
      rows stc !! t = Some (map (mem t) (seq 0 (hier_n_states self))).
Proof.
  intros H. unfold hier_generate_states in H.
  apply bind_Ok_inv in H as ([top_stc top] & _ & H).
  apply bind_Ok_inv in H as ([stc' hmms] & Hloop & H). injection H as <- <-.
  exists top_stc. split; [reflexivity|]. intros t Ht Hidle.
  assert (Hidx : Forall (fun i => entry top_stc t i <> Some 1%Z)
                        (seq 0 (n_bottom_level_hmms self))).
  { apply Forall_forall. intros i Hi. apply elem_of_seq in Hi. apply Hidle. lia. }
  pose proof (bottom_loop_keeps_row _ _ _ _ _ t Hloop Hidx) as Hkeep.
  cbn [fst] in Hkeep. rewrite Hkeep. cbn [np_empty rows].
  change (map ?f ?l) with (f <$> l) at 1.
  rewrite list_lookup_fmap, lookup_seq_lt by exact Ht. reflexivity.
Qed.

(** A top-level chain over three labels above two bottom-level chains. *)
Definition third3 : array2 Q :=
  Array2 3 3 [[1 # 3; 1 # 3; 1 # 3]; [1 # 3; 1 # 3; 1 # 3]; [1 # 3; 1 # 3; 1 # 3]]%Q.

Definition half2 : array2 Q := Array2 2 2 [[1 # 2; 1 # 2]; [1 # 2; 1 # 2]]%Q.

Definition idle_hierarchy : @HierarchicalHMM_MVN LCG_generator unit :=
  MkHier 2 (TopHMM (MkHMM LCG_generator third3 3 7%Z)) 2
         [MkHMM LCG_generator half2 2 1%Z; MkHMM LCG_generator half2 2 2%Z] None.

(** Six samples over memory that holds sevens: the top level visits labels
    0 1 2 2 2 0, and the three samples of label 2 keep their sevens. *)
Example idle_hierarchy_run :
  match hier_generate_states (fun (_ : unit) (_ : nat) => Raise AttributeError)
                             idle_hierarchy 6 (fun _ _ => 7%Q) with
  | Ok (stc, self') => (map (map Qred) (rows stc), rows <$> top_level_stc self')
  | Raise _ => ([], None)
  end
  = ([[1; 0]; [1; 0]; [7; 7]; [7; 7]; [7; 7]; [0; 1]]%Q,
     Some [[1; 0; 0]; [0; 1; 0]; [0; 0; 1]; [0; 0; 1]; [0; 0; 1]; [1; 0; 0]]%Z).
Proof. vm_compute. reflexivity. Qed.

Lemma hier_rows_without_chain_unwritten_witness :
  exists stc self' top_stc,
    hier_generate_states (fun (_ : unit) (_ : nat) => Raise AttributeError)
                         idle_hierarchy 6 (fun _ _ => 7%Q) = Ok (stc, self') /\
    top_level_stc self' = Some top_stc /\
    forall t, t < 6 ->
      (forall i, i < 2 -> entry top_stc t i <> Some 1%Z) ->
      rows stc !! t = Some [7; 7]%Q.
Proof.
  assert (E : is_ok (hier_generate_states (fun (_ : unit) (_ : nat) => Raise AttributeError)
                                          idle_hierarchy 6 (fun _ _ => 7%Q)) = true)
    by (vm_compute; reflexivity).
  destruct (is_ok_inv _ E) as [[stc self'] H].
  destruct (hier_rows_without_chain_unwritten unit _ idle_hierarchy self' 6 (fun _ _ => 7%Q)
              stc H) as (top_stc & Htop & Hrows).
  exists stc, self', top_stc. split; [exact H|]. split; [exact Htop | exact Hrows].
Defined.

Lemma unit_row_not_sevens (n k : nat) (row : list Z) :
  unit_row n k row -> map inject_Z row <> [7; 7]%Q.
Proof.
  intros (Hl & Hk & Hrow) E.
  destruct row as [|a [|b [|c row]]]; try discriminate E.
  cbn in Hl. subst n. specialize (Hrow 0 ltac:(lia)). cbn in Hrow.
  cbn [map] in E. injection E as Ea _. subst a.
  destruct k; discriminate Hrow.
Qed.

(** C2 as stated fails for an instance the constructor builds.  With an
    explicit 3 x 3 top-level matrix above two bottom-level configurations,
    the top-level chain runs over three labels, its [n_states] argument
    (two) being ignored for an explicit matrix, and there are two
    bottom-level chains.  Over memory that holds sevens, six samples are
    returned without an error; label 2 is active at sample 2, there is no
    bottom-level chain 2, and row 2 of the composite is the allocated
    memory, which is a row of no sample of either bottom-level chain. *)
Lemma hierarchy_label_without_chain_counterexample :
  exists stc self' top_stc,
    @HierarchicalHMM_MVN_init LCG_generator unit
      (fun _ _ _ _ _ => Raise AttributeError) (fun _ _ => Raise AttributeError)
      6 (ArgArray (Nd2 third3)) [ArgStr "uniform"; ArgStr "uniform"] (Some 2%Z) 2
      (Some 7%Z) (Some [Some 1%Z; Some 2%Z]) None None "hmm" None None
      0%Z (fun _ => 0%Z) (fun _ _ => 7%Q)
    = Ok (stc, self') /\
    shape0 stc = 6 /\
    top_level_stc self' = Some top_stc /\
    active top_stc 2 2 /\
    bottom_level_hmms self' !! 2 = None /\
    rows stc !! 2 = Some [7; 7]%Q /\
    forall h n x h' row,
      h ∈ bottom_level_hmms self' -> generate_states h n = Ok (x, h') ->
      row ∈ rows x -> map inject_Z row <> [7; 7]%Q.
Proof.
  eexists _, _, _. split; [reflexivity|]. split; [reflexivity|]. split; [reflexivity|].
  split; [reflexivity|]. split; [reflexivity|]. split; [reflexivity|].
  intros h n x h' row Hh Hgen Hrow.
  assert (HK : n_states h = 2).
  { apply list_elem_of_lookup_1 in Hh as [i Hi].
    destruct i as [|[|i]]; cbn in Hi;
      [injection Hi as <-; reflexivity | injection Hi as <-; reflexivity | discriminate Hi]. }
  destruct (generate_states_shape _ _ _ _ Hgen) as (_ & _ & _ & Xhot & _).
  rewrite HK in Xhot. specialize (Xhot ltac:(lia)).
  destruct (proj1 (Forall_forall _ _) Xhot row Hrow) as [k Hu].
  exact (unit_row_not_sevens _ _ _ Hu).
Qed.

(** ** Dimension checks ([validate]) *)

Lemma newaxes_ok (k : nat) (shape : list nat) :
  length shape + k <= NPY_MAXDIMS ->
  newaxes k shape = Ok (replicate k 1 ++ shape).
Proof.
  revert shape; induction k as [|k IH]; intros shape Hk; [reflexivity|].
  cbn [newaxes]. unfold newaxis.
  destruct (Nat.ltb_spec NPY_MAXDIMS (S (length shape))) as [?|_]; [lia|].
  rewrite bind_Ok, IH by (cbn [length]; lia).
  f_equal. change (1 :: shape) with ([1] ++ shape). rewrite app_assoc.
  f_equal. change [1] with (replicate 1 1). rewrite <- replicate_add.
  f_equal. lia.
Qed.

Lemma validate_loop_done (correct : nat) (allow : list nat) (shape : list nat) :
  length shape = correct ->
  foldl (fun acc dimensionality =>
           shape ← acc;
           if length shape =? dimensionality then newaxes (correct - dimensionality) shape
           else Ok shape) (Ok shape) allow = Ok shape.
Proof.
  intros Hlen. induction allow as [|d allow IH]; [reflexivity|].
  cbn [foldl]. rewrite bind_Ok.
  destruct (Nat.eqb_spec (length shape) d) as [<-|_]; [|exact IH].
  rewrite Hlen, Nat.sub_diag. exact IH.
Qed.

Lemma validate_loop (correct : nat) (allow : list nat) (shape : list nat) :
  correct <= NPY_MAXDIMS -> length shape <> correct ->
  foldl (fun acc dimensionality =>
           shape ← acc;
           if length shape =? dimensionality then newaxes (correct - dimensionality) shape
           else Ok shape) (Ok shape) allow
  = Ok (if bool_decide (length shape ∈ allow) && (length shape <? correct)
        then replicate (correct - length shape) 1 ++ shape else shape).
Proof.
  intros Hmax Hne. induction allow as [|d allow IH].
  - cbn [foldl]. rewrite bool_decide_eq_false_2 by (intros Hin; inversion Hin). reflexivity.
  - cbn [foldl]. rewrite bind_Ok.
    destruct (Nat.eqb_spec (length shape) d) as [<-|Hd].
    + rewrite (bool_decide_eq_true_2 _ (list_elem_of_here _ _)). cbn [andb].
      destruct (Nat.ltb_spec (length shape) correct) as [Hlt|Hge].
      * rewrite newaxes_ok by lia. apply validate_loop_done.
        rewrite length_app, length_replicate. lia.
      * replace (correct - length shape) with 0 by lia. cbn [newaxes]. rewrite IH.
        destruct (Nat.ltb_spec (length shape) correct) as [?|_]; [lia|].
        rewrite andb_false_r. reflexivity.
    + rewrite IH. f_equal.
      assert (E : bool_decide (length shape ∈ d :: allow) = bool_decide (length shape ∈ allow)).
      { apply bool_decide_ext. rewrite elem_of_cons. split; [intros [?|?]; [congruence | assumption] | auto]. }
      rewrite E. reflexivity.
Qed.

(** X21: [validate] returns exactly when the array already has the
    wanted number of dimensions, or has fewer and its number of dimensions
    is listed in [allow_dimensions]; what it returns is the array with
    leading axes of length one added up to the wanted number (a listed
    number of dimensions above the wanted one is not accepted); otherwise
    it raises a [ValueError] with the caller's message. *)
Theorem validate_spec (shape : list nat) (correct_dimensionality : nat)
    (allow_dimensions : list nat) (error_message : string) :
  correct_dimensionality <= NPY_MAXDIMS ->
  validate shape correct_dimensionality allow_dimensions error_message
  = if (length shape =? correct_dimensionality)
       || (bool_decide (length shape ∈ allow_dimensions)
           && (length shape <? correct_dimensionality))
    then Ok (replicate (correct_dimensionality - length shape) 1 ++ shape)
    else Raise (ValueError error_message).
Proof.
  intros Hmax. unfold validate.
  destruct (Nat.eqb_spec (length shape) correct_dimensionality) as [Heq|Hne].
  - rewrite validate_loop_done by exact Heq. rewrite bind_Ok.
    rewrite (proj2 (Nat.eqb_eq _ _) Heq). cbn [negb orb].
    rewrite Heq, Nat.sub_diag. reflexivity.
  - rewrite validate_loop by assumption. rewrite bind_Ok. cbn [orb].
    destruct (bool_decide (length shape ∈ allow_dimensions)); cbn [andb].
    + destruct (Nat.ltb_spec (length shape) correct_dimensionality) as [Hlt|Hge].
      * rewrite length_app, length_replicate.
        replace (correct_dimensionality - length shape + length shape)
          with correct_dimensionality by lia.
        rewrite Nat.eqb_refl. reflexivity.
      * rewrite (proj2 (Nat.eqb_neq _ _) Hne). reflexivity.
    + rewrite (proj2 (Nat.eqb_neq _ _) Hne). reflexivity.
Qed.

(** The call in [dynemo/analysis/power.py]: five dimensions wanted, three
    or four accepted. *)
Lemma validate_spec_witness :
  5 <= NPY_MAXDIMS /\
  validate [4; 4; 10] 5 [3; 4] "A 3D, 4D or 5D array must be passed." = Ok [1; 1; 4; 4; 10] /\
  validate [4; 10] 5 [3; 4] "A 3D, 4D or 5D array must be passed."
    = Raise (ValueError "A 3D, 4D or 5D array must be passed.").
Proof.
  assert (Hmax : 5 <= NPY_MAXDIMS) by (unfold NPY_MAXDIMS; lia).
  split; [exact Hmax|]. split.
  - exact (validate_spec [4; 4; 10] 5 [3; 4] "A 3D, 4D or 5D array must be passed." Hmax).
  - exact (validate_spec [4; 10] 5 [3; 4] "A 3D, 4D or 5D array must be passed." Hmax).
Defined.

(** ** The constructor of the hierarchical simulation *)

Section HierarchyInitProps.
Context `{G : Generator}.




End HierarchyInitProps.


Section HierarchyInitFacts.
Context `{G : Generator}.

Lemma build_bottom_level_hmms_inv (tps : list trans_prob_arg) (seeds : list (option Z))
    (sps : list (option Q)) (ns : option Z) (entropy : nat -> Z) (idx : list nat)
    (hs : list HMM) :
  build_bottom_level_hmms tps seeds sps ns entropy idx = Ok hs ->
  length hs = length idx /\
  Forall (fun i => i < length tps /\ i < length seeds /\ i < length sps) idx.
Proof.
  revert hs; induction idx as [|i idx IH]; intros hs H.
  - injection H as <-. split; [reflexivity | constructor].
  - cbn [build_bottom_level_hmms] in H.
    apply bind_Ok_inv in H as (tp & Htp & H).
    apply bind_Ok_inv in H as (seed & Hseed & H).
    apply bind_Ok_inv in H as (sp & Hsp & H).
    apply bind_Ok_inv in H as ([h w] & _ & H).
    apply bind_Ok_inv in H as (rest & Hrest & H). injection H as <-.
    destruct (IH _ Hrest) as [Hlen Hall].
    split; [cbn [length]; lia|]. constructor; [|exact Hall].
    destruct (tps !! i) eqn:E1; [|discriminate Htp].
    destruct (seeds !! i) eqn:E2; [|discriminate Hseed].
    destruct (sps !! i) eqn:E3; [|discriminate Hsp].
    apply lookup_lt_Some in E1, E2, E3. auto.
Qed.

Lemma bottom_step_shape (top : array2 Z) (n : nat) (st st' : array2 Q * list HMM) (i : nat) :
  bottom_step top n st i = Ok st' ->
  shape0 st'.1 = shape0 st.1 /\ shape1 st'.1 = shape1 st.1 /\ length st'.2 = length st.2.
Proof.
  destruct st as [stc hmms]. unfold bottom_step. intros H.
  apply bind_Ok_inv in H as (col & _ & H).
  apply bind_Ok_inv in H as (h & _ & H).
  apply bind_Ok_inv in H as ([x h'] & _ & H).
  apply bind_Ok_inv in H as (stc' & Hset & H). injection H as <-. cbn [fst snd].
  unfold setitem_rows in Hset. destruct (negb _); [discriminate|].
  apply bind_Ok_inv in Hset as (new_rows & _ & Hset). injection Hset as <-.
  cbn [shape0 shape1]. split; [reflexivity|]. split; [reflexivity | apply length_insert].
Qed.

Lemma bottom_loop_shape (top : array2 Z) (n : nat) (idx : list nat)
    (st st' : array2 Q * list HMM) :
  for_each (bottom_step top n) st idx = Ok st' ->
  shape0 st'.1 = shape0 st.1 /\ shape1 st'.1 = shape1 st.1 /\ length st'.2 = length st.2.
Proof.
  revert st; induction idx as [|i idx IH]; intros st H.
  - injection H as <-. auto.
  - cbn [for_each] in H. apply bind_Ok_inv in H as (st1 & H1 & H).
    destruct (IH _ H) as (A0 & A1 & A2).
    destruct (bottom_step_shape _ _ _ _ _ H1) as (B0 & B1 & B2).
    split; [congruence|]. split; congruence.
Qed.

End HierarchyInitFacts.

(** X23: what holds whenever the constructor of the hierarchical
    simulation returns.  The top-level type is ["hmm"] or ["hsmm"] up to
    letter case; a list of seeds or of stay probabilities, when passed, has
    at least one entry per bottom-level configuration; there is one
    bottom-level chain per configuration; the state time course has shape
    [(n_samples, n_states)] for the [n_states] of the observation model; and
    a Markov top-level chain has the number of configurations as its number
    of states, unless an explicit matrix was passed, whose size then wins
    without any check. *)
Theorem hierarchy_init_requirements `{G : Generator} (HSMM : Type)
    (HSMM_init : option Q -> option Q -> Z -> option Z -> Z -> result HSMM)
    (HSMM_generate_states : HSMM -> nat -> result (array2 Z * HSMM))
    (n_samples : nat) (top_tp : trans_prob_arg) (tps : list trans_prob_arg)
    (ns : option Z) (obs_n_modes : nat)
    (top_seed : option Z) (seeds : option (list (option Z))) (top_sp : option Q)
    (sps : option (list (option Q))) (ty : string) (gamma_shape gamma_scale : option Q)
    (e_top : Z) (e_bottom : nat -> Z) (mem : nat -> nat -> Q)
    (stc : array2 Q) (self' : HierarchicalHMM_MVN HSMM) :
  HierarchicalHMM_MVN_init HSMM HSMM_init HSMM_generate_states n_samples top_tp tps
    ns obs_n_modes top_seed seeds top_sp sps ty gamma_shape gamma_scale
    e_top e_bottom mem = Ok (stc, self') ->
  (str_lower ty = "hmm" \/ str_lower ty = "hsmm") /\
  (forall l, seeds = Some l -> length tps <= length l) /\
  (forall l, sps = Some l -> length tps <= length l) /\
  hier_n_states self' = obs_n_modes /\
  n_bottom_level_hmms self' = length tps /\
  length (bottom_level_hmms self') = length tps /\
  shape0 stc = n_samples /\ shape1 stc = obs_n_modes /\
  (forall h, top_level_hmm self' = TopHMM h ->
     n_states h = match top_tp with
                  | ArgArray (Nd2 m) => shape0 m
                  | _ => length tps
                  end).
Proof.
  intros H. unfold HierarchicalHMM_MVN_init in H.
  apply bind_Ok_inv in H as (top & Htop & H).
  apply bind_Ok_inv in H as (hs & Hhs & H).
  destruct (build_bottom_level_hmms_inv _ _ _ _ _ _ _ Hhs) as [Hlen Hidx].
  rewrite length_seq in Hlen.
  assert (Hlists : length tps <= length (default (replicate (length tps) None) seeds) /\
                   length tps <= length (default (replicate (length tps) None) sps)).
  { destruct (length tps) as [|K] eqn:EK; [split; lia|]. rewrite <- EK in *.
    pose proof (proj1 (Forall_forall _ _) Hidx K) as HKx.
    destruct HKx as (_ & H1 & H2); [apply elem_of_seq; lia|]. split; lia. }
  unfold hier_generate_states in H. cbn [top_level_hmm hier_n_states bottom_level_hmms
    n_bottom_level_hmms] in H.
  apply bind_Ok_inv in H as ([top_stc top'] & Hgen & H).
  apply bind_Ok_inv in H as ([stc' hmms] & Hloop & H). injection H as <- <-.
  destruct (bottom_loop_shape _ _ _ _ _ Hloop) as (S0 & S1 & SL). cbn [fst snd] in S0, S1, SL.
  cbn [hier_n_states n_bottom_level_hmms bottom_level_hmms top_level_hmm].
  split.
  { destruct (String.eqb_spec (str_lower ty) "hmm") as [E|_]; [left; exact E|].
    destruct (String.eqb_spec (str_lower ty) "hsmm") as [E|_]; [right; exact E|].
    discriminate Htop. }
  split; [intros l ->; apply Hlists|]. split; [intros l ->; apply Hlists|].
  split; [reflexivity|]. split; [reflexivity|]. split; [congruence|].
  split; [exact S0|]. split; [exact S1|].
  intros h ->.
  destruct (String.eqb (str_lower ty) "hmm").
  - apply bind_Ok_inv in Htop as ([h0 w] & Hh0 & Htop). injection Htop as <-.
    cbn [top_generate_states] in Hgen.
    apply bind_Ok_inv in Hgen as ([x hx] & Hx & Hgen). injection Hgen as _ <-.
    destruct (generate_states_shape _ _ _ _ Hx) as (_ & _ & _ & _ & _ & Hsame).
    destruct (HMM_init_n_states _ _ _ _ _ _ _ Hh0) as (_ & _ & Hk).
    rewrite Hsame, Hk. destruct top_tp as [[| |m|]| | |]; try reflexivity; apply Nat2Z.id.
  - destruct (String.eqb (str_lower ty) "hsmm"); [|discriminate Htop].
    apply bind_Ok_inv in Htop as (hsmm & _ & Htop). injection Htop as <-.
    cbn [top_generate_states] in Hgen.
    apply bind_Ok_inv in Hgen as ([x hx] & _ & Hgen). discriminate Hgen.
Qed.


Lemma hierarchy_init_requirements_witness :
  exists stc self',
    @HierarchicalHMM_MVN_init LCG_generator unit
      (fun _ _ _ _ _ => Raise AttributeError) (fun _ _ => Raise AttributeError)
      4 (ArgArray (Nd2 third3)) [ArgStr "uniform"; ArgStr "uniform"] (Some 2%Z) 2
      (Some 7%Z) (Some [Some 1%Z; Some 2%Z; Some 3%Z]) None None "hmm" None None
      0%Z (fun _ => 0%Z) (fun _ _ => 7%Q)
    = Ok (stc, self') /\
    n_bottom_level_hmms self' = 2 /\
    shape0 stc = 4 /\ shape1 stc = 2 /\
    forall h, top_level_hmm self' = TopHMM h -> n_states h = 3.
Proof.
  assert (E : is_ok (@HierarchicalHMM_MVN_init LCG_generator unit
      (fun _ _ _ _ _ => Raise AttributeError) (fun _ _ => Raise AttributeError)
      4 (ArgArray (Nd2 third3)) [ArgStr "uniform"; ArgStr "uniform"] (Some 2%Z) 2
      (Some 7%Z) (Some [Some 1%Z; Some 2%Z; Some 3%Z]) None None "hmm" None None
      0%Z (fun _ => 0%Z) (fun _ _ => 7%Q)) = true) by (vm_compute; reflexivity).
  destruct (is_ok_inv _ E) as [[stc self'] H].
  destruct (hierarchy_init_requirements _ _ _ _ _ _ _ _ _ _ _ _ _ _ _ _ _ _ _ _ H)
    as (_ & _ & _ & _ & HK & _ & S0 & S1 & Htop).
  exists stc, self'. split; [exact H|]. split; [exact HK|].
  split; [exact S0|]. split; [exact S1 | exact Htop].
Defined.

(** ** Concrete instances of the edge cases *)

Lemma valid_half2_chain (seed : Z) : valid_hmm (MkHMM LCG_generator half2 2 seed).
Proof.
  unfold valid_hmm, half2. cbn [n_states trans_prob shape0 shape1 rows].
  split; [lia|]. do 3 (split; [reflexivity|]).
  assert (Hp : valid_pvec 2 [1 # 2; 1 # 2]%Q).
  { split; [reflexivity|]. split.
    - constructor; [discriminate|]. constructor; [discriminate | constructor].
    - vm_compute. discriminate. }
  constructor; [exact Hp|]. constructor; [exact Hp | constructor].
Qed.

Lemma zero_samples_empty_witness :
  valid_hmm (MkHMM LCG_generator half2 2 3%Z) /\
  exists h', generate_states (MkHMM LCG_generator half2 2 3%Z) 0 = Ok (Array2 0 2 [], h') /\
             trans_prob h' = half2 /\ n_states h' = 2.
Proof.
  split; [apply valid_half2_chain|].
  exact (zero_samples_empty (MkHMM LCG_generator half2 2 3%Z) (valid_half2_chain 3)).
Defined.

Lemma one_state_chain_constant_witness :
  exists x h',
    generate_states (MkHMM LCG_generator (np_ones 1 1) 1 0%Z) 5 = Ok (x, h') /\
    x = Array2 5 1 (replicate 5 [1%Z]).
Proof.
  assert (E : is_ok (generate_states (MkHMM LCG_generator (np_ones 1 1) 1 0%Z) 5) = true)
    by (vm_compute; reflexivity).
  destruct (is_ok_inv _ E) as [[x h'] H].
  exists x, h'. split; [exact H|].
  exact (one_state_chain_constant (MkHMM LCG_generator (np_ones 1 1) 1 0%Z) h' 5 x
           eq_refl H).
Defined.

Lemma single_chain_is_alpha_witness :
  exists ms sim,
    @MS_HMM_MVN_init LCG_generator 5 (ArgStr "uniform") 3%Z (Some (9 # 10)) (Some 0%Z)
                     0%Z 0%Z = Ok ms /\
    @HMM_MVN_init LCG_generator 5 (ArgStr "uniform") 3%Z (Some (9 # 10)) (Some 0%Z) 5%Z
      = Ok sim /\
    state_time_course ms !! 0 = Some (mvn_state_time_course sim).
Proof.
  assert (E : is_ok (@MS_HMM_MVN_init LCG_generator 5 (ArgStr "uniform") 3%Z (Some (9 # 10))
                       (Some 0%Z) 0%Z 0%Z) = true) by (vm_compute; reflexivity).
  destruct (is_ok_inv _ E) as [ms Hms].
  destruct (single_chain_is_alpha 5 (ArgStr "uniform") 3%Z (Some (9 # 10)) 0%Z 0%Z 0%Z 5%Z
              ms Hms) as (sim & Hsim & Hstc & _).
  exists ms, sim. split; [exact Hms|]. split; [exact Hsim | exact Hstc].
Defined.

Lemma single_chain_matrix_unchecked_witness :
  exists sim,
    @HMM_MVN_init LCG_generator 5 (ArgArray (Nd2 half2)) 7%Z None (Some 0%Z) 0%Z = Ok sim /\
    mvn_n_states sim = 7%Z /\
    n_states (mvn_hmm sim) = 2 /\
    shape1 (mvn_state_time_course sim) = 2.
Proof.
  assert (E : is_ok (@HMM_MVN_init LCG_generator 5 (ArgArray (Nd2 half2)) 7%Z None
                       (Some 0%Z) 0%Z) = true) by (vm_compute; reflexivity).
  destruct (is_ok_inv _ E) as [sim Hsim].
  destruct (single_chain_matrix_unchecked 5 half2 7%Z None (Some 0%Z) 0%Z sim Hsim)
    as (Hk & Hn & _ & H1 & _).
  exists sim. split; [exact Hsim|]. split; [exact Hk|]. split; [exact Hn | exact H1].
Defined.

(** ** Runs of [True] ([ezclump]) *)

Lemma filter_fmap_S (P : nat -> Prop) `{forall x, Decision (P x)} (l : list nat) :
  filter P (S <$> l) = S <$> filter (fun i => P (S i)) l.
Proof.
  induction l as [|x l IH]; [reflexivity|].
  cbn [fmap list_fmap]. rewrite !filter_cons. fold (S <$> l). rewrite IH.
  destruct (decide (P (S x))); reflexivity.
Qed.

Lemma np_nonzero_cons (y : bool) (d : list bool) :
  np_nonzero (y :: d) = (if y then [0] else []) ++ (S <$> np_nonzero d).
Proof.
  unfold np_nonzero. cbn [length seq]. rewrite filter_cons.
  rewrite <- fmap_S_seq, filter_fmap_S.
  destruct y; cbn [lookup list_lookup]; (destruct (decide _) as [E|E]; [|try (exfalso; apply E; reflexivity)]);
    try discriminate E; reflexivity.
Qed.

Lemma py_slice_from_one {A} (l : list A) : py_slice l (Some 1%Z) None = drop 1 l.
Proof.
  unfold py_slice, slice_bound. cbn [from_option Z.ltb Z.compare].
  change (Z.to_nat 1) with 1.
  destruct l as [|x l]; [reflexivity|].
  replace (Nat.min (length (x :: l)) 1) with 1 by (cbn [length]; lia).
  apply take_ge. rewrite length_drop. lia.
Qed.

Lemma py_slice_from_two {A} (l : list A) : py_slice l (Some 2%Z) None = drop 2 l.
Proof.
  unfold py_slice, slice_bound. cbn [from_option Z.ltb Z.compare].
  change (Z.to_nat 2) with 2.
  destruct l as [|x [|y l]]; [reflexivity | reflexivity |].
  replace (Nat.min (length (x :: y :: l)) 2) with 2 by (cbn [length]; lia).
  apply take_ge. rewrite length_drop. lia.
Qed.

Lemma py_slice_but_last {A} (l : list A) :
  py_slice l None (Some (-1)%Z) = take (length l - 1) l.
Proof.
  unfold py_slice, slice_bound. cbn [from_option Z.ltb Z.compare drop].
  rewrite Nat.sub_0_r. f_equal. lia.
Qed.

Lemma py_slice_inner {A} (l : list A) :
  py_slice l (Some 1%Z) (Some (-1)%Z) = take (length (drop 1 l) - 1) (drop 1 l).
Proof.
  unfold py_slice, slice_bound. cbn [from_option Z.ltb Z.compare].
  change (Z.to_nat 1) with 1. rewrite length_drop.
  destruct l as [|x l]; [reflexivity|].
  replace (Nat.min (length (x :: l)) 1) with 1 by (cbn [length]; lia).
  f_equal. cbn [length]. lia.
Qed.

Lemma idx_change_points (x : bool) (b : list bool) (k : nat) :
  map (fun i => i + k) (np_nonzero (zip_with xorb b (take (length b) (x :: b))))
  = change_points k x b.
Proof.
  revert x k; induction b as [|y b IH]; intros x k; [reflexivity|].
  cbn [length take zip_with change_points]. rewrite np_nonzero_cons, map_app.
  f_equal; [destruct (xorb y x); reflexivity|].
  rewrite <- (IH y (S k)). change (map ?f ?l) with (f <$> l).
  rewrite <- list_fmap_compose. apply list_fmap_ext. intros _ i _. cbn. lia.
Qed.

Lemma every_other_cons {A} (a : A) (l : list A) :
  every_other (a :: l) = a :: every_other (drop 1 l).
Proof. destruct l; reflexivity. Qed.

Lemma zip_pairs_complete (l : list nat) :
  zip (every_other (take (length l - 1) l)) (every_other (drop 1 l)) = pairs_complete l.
Proof.
  assert (H : forall n (l : list nat), length l <= n ->
            zip (every_other (take (length l - 1) l)) (every_other (drop 1 l))
            = pairs_complete l); [|apply (H (length l)); lia].
  clear l. induction n as [|n IH]; intros l Hl.
  - destruct l; [reflexivity | cbn in Hl; lia].
  - destruct l as [|a [|b l]]; [reflexivity | reflexivity |].
    cbn [length] in Hl.
    replace (length (a :: b :: l) - 1) with (S (length l)) by (cbn [length]; lia).
    change (drop 1 (a :: b :: l)) with (b :: l).
    change (take (S (length l)) (a :: b :: l)) with (a :: take (length l) (b :: l)).
    rewrite (every_other_cons a), (every_other_cons b).
    assert (E : drop 1 (take (length l) (b :: l)) = take (length l - 1) l).
    { destruct l as [|c l]; [reflexivity|]. cbn [length take drop].
      replace (S (length l) - 1) with (length l) by lia. reflexivity. }
    rewrite E. cbn [zip zip_with pairs_complete]. f_equal. apply IH. lia.
Qed.

(** The runs in terms of the change points: the change points (after the
    start of a run that is open) pair up into runs, and an unpaired last
    one starts a run that lasts to the end. *)
Lemma clumps_change_points (pos : nat) (start : option nat) (b : list bool) :
  clumps_from pos start b
  = pairs_complete (from_option (fun s => [s]) [] start
                    ++ change_points pos (bool_decide (is_Some start)) b)
    ++ (if Nat.odd (length (from_option (fun s => [s]) [] start
                            ++ change_points pos (bool_decide (is_Some start)) b))
        then [(default 0 (last (from_option (fun s => [s]) [] start
                                ++ change_points pos (bool_decide (is_Some start)) b)),
               pos + length b)]
        else []).
Proof.
  revert pos start; induction b as [|y b IH]; intros pos start.
  - destruct start as [s|]; cbn; [rewrite Nat.add_0_r|]; reflexivity.
  - cbn [clumps_from change_points length].
    replace (pos + S (length b)) with (S pos + length b) by lia.
    destruct y, start as [s|]; rewrite IH; clear IH.
    + rewrite (bool_decide_eq_true_2 (is_Some (Some (default pos (Some s)))))
        by (eexists; reflexivity).
      rewrite (bool_decide_eq_true_2 (is_Some (Some s))) by (eexists; reflexivity).
      reflexivity.
    + rewrite (bool_decide_eq_true_2 (is_Some (Some (default pos None))))
        by (eexists; reflexivity).
      rewrite (bool_decide_eq_false_2 (is_Some None)) by (intros [? ?]; discriminate).
      reflexivity.
    + rewrite (bool_decide_eq_true_2 (is_Some (Some s))) by (eexists; reflexivity).
      rewrite (bool_decide_eq_false_2 (is_Some None)) by (intros [? ?]; discriminate).
      cbn [from_option app xorb pairs_complete length Nat.odd Nat.even].
      destruct (change_points (S pos) false b) as [|c cs]; [reflexivity|].
      cbn [length Nat.odd Nat.even negb]. rewrite !last_cons_cons. reflexivity.
    + rewrite (bool_decide_eq_false_2 (is_Some None)) by (intros [? ?]; discriminate).
      reflexivity.
Qed.

(** The last item is the first one flipped once per change point. *)
Lemma last_parity (pos : nat) (x : bool) (b : list bool) :
  last (x :: b) = Some (xorb x (Nat.odd (length (change_points pos x b)))).
Proof.
  revert pos x; induction b as [|y b IH]; intros pos x.
  - destruct x; reflexivity.
  - rewrite last_cons_cons, (IH (S pos) y). cbn [change_points]. f_equal.
    rewrite length_app. destruct y, x; cbn [xorb length Nat.add]; try reflexivity;
      rewrite Nat.odd_succ, <- Nat.negb_odd; destruct (Nat.odd _); reflexivity.
Qed.

Lemma ezclump_idx (x : bool) (b : list bool) :
  map (fun i => i + 1)
      (np_nonzero (zip_with xorb (py_slice (x :: b) (Some 1%Z) None)
                                 (py_slice (x :: b) None (Some (-1)%Z))))
  = change_points 1 x b.
Proof.
  rewrite py_slice_from_one, py_slice_but_last. cbn [drop length].
  replace (S (length b) - 1) with (length b) by lia. apply idx_change_points.
Qed.

(** [ezclump] computes the runs. *)
Lemma ezclump_clumps (x : bool) (b : list bool) :
  ezclump (x :: b) = Ok (clumps_from 0 None (x :: b)).
Proof.
  rewrite clumps_change_points.
  rewrite (bool_decide_eq_false_2 (is_Some None)) by (intros [? ?]; discriminate).
  cbn [from_option app change_points Nat.add].
  unfold ezclump. cbn zeta. rewrite ezclump_idx.
  cbn [lookup list_lookup from_option]. rewrite bind_Ok.
  rewrite (last_parity 1 x b).
  cbn [from_option]. 
  destruct (change_points 1 x b) as [|i0 rest] eqn:Eidx.
  - destruct x; reflexivity.
  - cbn [length Nat.eqb]. destruct x; cbn [xorb app].
    + cbn [lookup list_lookup from_option]. rewrite !bind_Ok.
      unfold py_slice_step2. rewrite py_slice_inner, py_slice_from_two.
      change (drop 2 (i0 :: rest)) with (drop 1 rest).
      change (drop 1 (i0 :: rest)) with rest.
      rewrite (zip_pairs_complete rest).
      cbn [pairs_complete length]. rewrite Nat.odd_succ_succ.
      assert (E : Nat.odd (S (length rest)) = negb (Nat.odd (length rest)))
        by (rewrite Nat.odd_succ, <- Nat.negb_odd; reflexivity).
      rewrite E. destruct (Nat.odd (length rest)) eqn:Eodd; cbn [negb];
        [|rewrite app_nil_r; reflexivity].
      rewrite last_cons_cons.
      destruct (last (i0 :: rest)) as [il|] eqn:El; [reflexivity|].
      rewrite last_cons in El. destruct (last rest); discriminate El.
    + rewrite !bind_Ok.
      unfold py_slice_step2. rewrite py_slice_but_last, py_slice_from_one.
      rewrite (zip_pairs_complete (i0 :: rest)). cbn [length].
      destruct (Nat.odd (S (length rest))) eqn:Eodd; [|rewrite app_nil_r; reflexivity].
      destruct (last (i0 :: rest)) as [il|] eqn:El; [reflexivity|].
      rewrite last_cons in El. destruct (last rest); discriminate El.
Qed.

Lemma open_ok_true (pre : list bool) (start : option nat) :
  open_ok pre start -> open_ok (pre ++ [true]) (Some (default (length pre) start)).
Proof.
  destruct start as [s|]; cbn [open_ok default from_option id]; rewrite length_app; cbn [length].
  - intros (Hs & Htrue & Hbefore). split; [lia|]. split.
    + intros t Ht. destruct (Nat.eq_dec t (length pre)) as [->|Hne].
      * apply list_lookup_middle. reflexivity.
      * rewrite lookup_app_l by lia. apply Htrue. lia.
    + destruct Hbefore as [?|Hb]; [left; assumption | right].
      rewrite lookup_app_l by lia. exact Hb.
  - intros Hpre. split; [lia|]. split.
    + intros t Ht. assert (t = length pre) as -> by lia.
      apply list_lookup_middle. reflexivity.
    + destruct Hpre as [->|Hlast]; [left; reflexivity | right].
      rewrite last_lookup in Hlast.
      destruct pre as [|x pre]; [discriminate Hlast|]. cbn [length Nat.pred] in *.
      rewrite lookup_app_l by (cbn [length]; lia).
      replace (S (length pre) - 1) with (length pre) by lia. exact Hlast.
Qed.

Lemma open_ok_false (pre : list bool) (start : option nat) :
  open_ok (pre ++ [false]) None.
Proof. right. apply last_snoc. Qed.

Lemma clumps_from_runs (b pre : list bool) (start : option nat) :
  open_ok pre start ->
  (forall l r, (l, r) ∈ clumps_from (length pre) start b ->
     l < r <= length (pre ++ b) /\
     (forall t, l <= t < r -> (pre ++ b) !! t = Some true) /\
     (l = 0 \/ (pre ++ b) !! (l - 1) = Some false) /\
     (r = length (pre ++ b) \/ (pre ++ b) !! r = Some false) /\
     from_option (fun s => s <= l) (length pre <= l) start) /\
  (forall t, from_option (fun s => s <= t) (length pre <= t) start ->
     (pre ++ b) !! t = Some true ->
     exists l r, (l, r) ∈ clumps_from (length pre) start b /\ l <= t < r).
Proof.
  revert pre start; induction b as [|y b IH]; intros pre start Hopen.
  - rewrite app_nil_r. cbn [clumps_from]. destruct start as [s|]; cbn [from_option].
    + destruct Hopen as (Hs & Htrue & Hbefore). split.
      * intros l r Hin. apply list_elem_of_singleton in Hin. injection Hin as -> ->.
        split; [lia|]. split; [exact Htrue|]. split; [exact Hbefore|].
        split; [left; reflexivity | lia].
      * intros t Ht Htt. exists s, (length pre). split; [apply list_elem_of_here|].
        apply lookup_lt_Some in Htt. lia.
    + split; [intros l r Hin; inversion Hin|].
      intros t Ht Htt. apply lookup_lt_Some in Htt. lia.
  - replace (pre ++ y :: b) with ((pre ++ [y]) ++ b) by (rewrite <- app_assoc; reflexivity).
    assert (Hlen : S (length pre) = length (pre ++ [y]))
      by (rewrite length_app; cbn [length]; lia).
    cbn [clumps_from]. rewrite Hlen. destruct y.
    + destruct (IH (pre ++ [true]) _ (open_ok_true pre start Hopen)) as [IH1 IH2].
      cbn [from_option] in IH1, IH2. split.
      * intros l r Hin. destruct (IH1 l r Hin) as (A & B & C & D & E).
        repeat (split; [assumption|]).
        destruct start as [s|]; cbn [default from_option id] in *; lia.
      * intros t Ht Htt. apply IH2; [|exact Htt].
        destruct start as [s|]; cbn [default from_option id] in *; lia.
    + destruct (IH (pre ++ [false]) None (open_ok_false pre start)) as [IH1 IH2].
      cbn [from_option] in IH1, IH2.
      assert (Hrec : forall l r, (l, r) ∈ clumps_from (length (pre ++ [false])) None b ->
                l < r <= length ((pre ++ [false]) ++ b) /\
                (forall t, l <= t < r -> ((pre ++ [false]) ++ b) !! t = Some true) /\
                (l = 0 \/ ((pre ++ [false]) ++ b) !! (l - 1) = Some false) /\
                (r = length ((pre ++ [false]) ++ b)
                 \/ ((pre ++ [false]) ++ b) !! r = Some false) /\
                from_option (fun s => s <= l) (length pre <= l) start).
      { intros l r Hin. destruct (IH1 l r Hin) as (A & B & C & D & E).
        repeat (split; [assumption|]). rewrite <- Hlen in E.
        destruct start as [s|]; cbn [from_option open_ok] in *; lia. }
      assert (Hcov : forall t, length pre <= t -> ((pre ++ [false]) ++ b) !! t = Some true ->
                exists l r, (l, r) ∈ clumps_from (length (pre ++ [false])) None b /\
                            l <= t < r).
      { intros t Ht Htt. apply IH2; [|exact Htt]. rewrite <- Hlen.
        destruct (Nat.eq_dec t (length pre)) as [->|Hne]; [|lia].
        rewrite <- app_assoc in Htt. cbn [app] in Htt.
        rewrite list_lookup_middle in Htt by reflexivity. discriminate Htt. }
      destruct start as [s|]; cbn [from_option].
      * destruct Hopen as (Hs & Htrue & Hbefore). split.
        -- intros l r Hin. apply elem_of_cons in Hin as [Hin|Hin]; [|exact (Hrec l r Hin)].
           injection Hin as -> ->. rewrite !length_app. cbn [length].
           split; [lia|]. split.
           { intros t Ht. rewrite <- app_assoc, lookup_app_l by lia. apply Htrue. lia. }
           split.
           { destruct Hbefore as [?|Hb]; [left; assumption | right].
             rewrite <- app_assoc, lookup_app_l by lia. exact Hb. }
           split; [|lia]. right. rewrite <- app_assoc. cbn [app].
           apply list_lookup_middle. reflexivity.
        -- intros t Ht Htt. destruct (Nat.lt_ge_cases t (length pre)) as [Hlt|Hge].
           ++ exists s, (length pre). split; [apply list_elem_of_here | lia].
           ++ destruct (Hcov t Hge Htt) as (l & r & Hin & Hlr).
              exists l, r. split; [apply list_elem_of_further, Hin | exact Hlr].
      * split; [exact Hrec | exact Hcov].
Qed.

Lemma clumps_from_sorted (b pre : list bool) (start : option nat) :
  open_ok pre start ->
  forall i j l1 r1 l2 r2, i < j ->
    clumps_from (length pre) start b !! i = Some (l1, r1) ->
    clumps_from (length pre) start b !! j = Some (l2, r2) -> r1 < l2.
Proof.
  revert pre start; induction b as [|y b IH]; intros pre start Hopen i j l1 r1 l2 r2 Hij H1 H2.
  - cbn [clumps_from] in H1, H2.
    destruct start; [|discriminate H1].
    destruct i, j; try lia; discriminate H2.
  - assert (Hlen : S (length pre) = length (pre ++ [y]))
      by (rewrite length_app; cbn [length]; lia).
    cbn [clumps_from] in H1, H2. rewrite Hlen in H1, H2. destruct y.
    + exact (IH _ _ (open_ok_true pre start Hopen) i j l1 r1 l2 r2 Hij H1 H2).
    + destruct start as [s|].
      * destruct i as [|i], j as [|j]; try lia.
        -- cbn [lookup list_lookup] in H1, H2. injection H1 as <- <-.
           destruct (clumps_from_runs b (pre ++ [false]) None (open_ok_false pre (Some s)))
             as [R _].
           destruct (R l2 r2 (list_elem_of_lookup_2 _ _ _ H2)) as (_ & _ & _ & _ & E).
           cbn [from_option] in E. rewrite <- Hlen in E. lia.
        -- cbn [lookup list_lookup] in H1, H2.
           apply (IH _ _ (open_ok_false pre (Some s)) i j l1 r1 l2 r2); [lia | assumption..].
      * exact (IH _ _ (open_ok_false pre None) i j l1 r1 l2 r2 Hij H1 H2).
Qed.

(** X24: [ezclump] returns the maximal runs of [True] of a non-empty 1-D
    boolean array, in ascending order: a position holds [True] exactly when
    it lies in one of the slices; every slice is non-empty (its
    [slice_length] is positive), lies inside the array, has a [False] (or
    the start of the array) right before it and a
    [False] (or the end of the array) right after it; and each slice
    starts after the end of the slices before it.  An empty array raises
    an [IndexError]. *)
Theorem ezclump_runs (x : bool) (b : list bool) :
  ezclump [] = Raise IndexError /\
  exists out, ezclump (x :: b) = Ok out /\
    (forall t, (x :: b) !! t = Some true <-> exists l r, (l, r) ∈ out /\ l <= t < r) /\
    (forall l r, (l, r) ∈ out ->
       l < r <= length (x :: b) /\ (0 < slice_length (l, r))%Z /\
       (l = 0 \/ (x :: b) !! (l - 1) = Some false) /\
       (r = length (x :: b) \/ (x :: b) !! r = Some false)) /\
    (forall i j l1 r1 l2 r2, i < j ->
       out !! i = Some (l1, r1) -> out !! j = Some (l2, r2) -> r1 < l2).
Proof.
  split; [reflexivity|].
  exists (clumps_from 0 None (x :: b)). split; [apply ezclump_clumps|].
  assert (Hopen : open_ok [] None) by (left; reflexivity).
  destruct (clumps_from_runs (x :: b) [] None Hopen) as [R C].
  cbn [length app from_option] in R, C. split; [|split].
  - intros t. split.
    + intros Ht. apply C; [lia | exact Ht].
    + intros (l & r & Hin & Hlr). destruct (R l r Hin) as (_ & Htrue & _). apply Htrue, Hlr.
  - intros l r Hin. destruct (R l r Hin) as (A & _ & B & D & _).
    split; [exact A|]. split; [unfold slice_length; cbn [fst snd]; lia | auto].
  - exact (clumps_from_sorted (x :: b) [] None Hopen).
Qed.
